(** * Tabular statistics helpers: a shallow embedding and its properties

    The JavaScript module under verification exports seven functions over an
    array of row objects: [calculateStatistics], [findAnomalies],
    [countMissingValues], [filterData], [groupBy], [aggregateGroups] and
    [detectColumnTypes].  (The prose specification calls them
    computeColumnStatistics, detectAnomalies, countMissingValues, filterRows,
    groupByColumn, aggregateGroups and inferColumnTypes.)

    The embedding has three layers:
    - [Number]: ECMAScript Numbers as IEEE-754 binary64 values, using the
      executable specification [spec_float] of the Standard Library, with
      round-to-nearest-even arithmetic, [Math.round], the minimum and the
      maximum of a list and the sort of an array of Numbers;
    - [Str]: the string side of the runtime: [parseFloat], the ToNumber
      conversion of strings, Number-to-String conversion, [toLowerCase],
      [includes];
    - the module's functions themselves, translated line by line.

    Model boundaries.
    - Strings are sequences of ASCII characters.
    - A dataset is a list of rows (the guard [!data] of the source, for a
      dataset that is null or undefined, has no counterpart); a row is a
      plain object, given by the finite map of its own properties from
      column names to cell values; cell values are undefined, null,
      booleans, Numbers and strings, and objects as far as the string
      they convert to.
    - A property read, [row[column]] or [groups[key]], that finds no own
      property finds the member of [Object.prototype] of that name, if
      there is one ([constructor], [toString], [__proto__], ...): see
      [get] and [groupBy].  Such a member is a function or an object; it
      is represented by the string it converts to, in the spelling of V8.
    - A call [Math.min(...values)] passes one argument per value, and an
      engine throws a RangeError when there are too many.  The greatest
      number of arguments it accepts is a parameter, [max_arguments], of
      the functions that make such a call.
    - An error thrown is an outcome of its own: see [Result].
    - The objects that [countMissingValues] and [detectColumnTypes] return
      are given by the finite map of the properties assigned to them; the
      column name [__proto__], whose assignment sets the prototype of the
      object instead, is outside this model.
    - [Math.pow(x, 2)] is the correctly rounded square.
    - [Date.parse] is implementation-defined and is a parameter of
      [detectColumnTypes].

    Besides the seven exports, the check of the API key that the
    language-model client runs before each request ([validateApiKey]) is
    embedded: a function from the two environment variables it reads to
    the lines it logs, the environment it leaves behind, and the error it
    throws or the key it returns.  The values of the variables are taken
    to be ASCII strings, so that lengths count characters. *)

From Stdlib Require Import ZArith Bool List String Ascii Lia Sorted.
From Stdlib Require Import SpecFloat.
From stdpp Require Import base option list strings gmap.

Local Open Scope Z_scope.

(** ** ECMAScript Numbers *)

Module Number.

Definition prec : Z := 53.
Definition emax : Z := 1024.

Definition number : Type := spec_float.

Definition NaN : number := S754_nan.
Definition Infinity : number := S754_infinity false.
Definition neg_Infinity : number := S754_infinity true.
Definition zero : number := S754_zero false.
Definition neg_zero : number := S754_zero true.

Definition add : number -> number -> number := SFadd prec emax.
Definition sub : number -> number -> number := SFsub prec emax.
Definition mul : number -> number -> number := SFmul prec emax.
Definition div : number -> number -> number := SFdiv prec emax.
Definition lt : number -> number -> bool := SFltb.
Definition le : number -> number -> bool := SFleb.
Definition gt (x y : number) : bool := SFltb y x.

Definition isNaN (x : number) : bool :=
  match x with S754_nan => true | _ => false end.

(** [Number.isFinite], also the last step of the global [isFinite]. *)
Definition is_finite (x : number) : bool :=
  match x with
  | S754_nan | S754_infinity _ => false
  | _ => true
  end.

(** The Number nearest to the rational [(-1)^s * num / den] (ties to
    even).  The quotient is computed with at least [prec + 1] significant
    bits and the remainder is kept as a rounding location. *)
Definition of_ratio (s : bool) (num : Z) (den : positive) : number :=
  match num with
  | Zpos _ =>
      let k := Z.max 0 (prec + 2 + Zdigits2 (Zpos den) - Zdigits2 num) in
      let '(q, r) := Z.div_eucl (Z.shiftl num k) (Zpos den) in
      let l :=
        if r =? 0 then loc_Exact
        else loc_Inexact (Z.compare (2 * r) (Zpos den)) in
      binary_round_aux prec emax s q (- k) l
  | _ => S754_zero s
  end.

(** The Number nearest to [(-1)^s * m * 10^e], for [0 <= m]. *)
Definition of_decimal (s : bool) (m : Z) (e : Z) : number :=
  match e with
  | Zneg p => of_ratio s m (Pos.pow 10 p)
  | _ => of_ratio s (m * 10 ^ e) 1
  end.

(** The Number for an integer: array lengths and the literals of the
    source. *)
Definition of_Z (z : Z) : number :=
  binary_normalize prec emax z 0 false.

Definition of_nat (n : nat) : number := of_Z (Z.of_nat n).

(** [Math.abs], [Math.sqrt]. *)
Definition Math_abs : number -> number := SFabs.
Definition Math_sqrt : number -> number := SFsqrt prec emax.

(** [Math.pow(x, 2)], the only exponent the source uses.  ECMAScript
    leaves the accuracy of [pow] to the implementation; the model takes
    the correctly rounded square, which agrees with the specified special
    cases (NaN, infinities and zeros). *)
Definition Math_pow_2 (x : number) : number := mul x x.

(** [Math.round]: the nearest integer, ties towards +Infinity; a zero
    result keeps the sign of the argument. *)
Definition Math_round (x : number) : number :=
  match x with
  | S754_finite s m e =>
      if 0 <=? e then x
      else
        let d := 2 ^ (- e) in
        let n := (2 * cond_Zopp s (Zpos m) + d) / (2 * d) in
        if n =? 0 then S754_zero s else of_Z n
  | _ => x
  end.

(** What [Math.min] and [Math.max] return for a list of arguments, by the
    loops of the language specification. *)
Definition min_step (lowest : number) (x : number) : number :=
  match x, lowest with
  | S754_zero true, S754_zero false => x
  | _, _ => if lt x lowest then x else lowest
  end.

Definition max_step (highest : number) (x : number) : number :=
  match x, highest with
  | S754_zero false, S754_zero true => x
  | _, _ => if lt highest x then x else highest
  end.

Definition min_of (values : list number) : number :=
  if existsb isNaN values then NaN
  else fold_left min_step values Infinity.

Definition max_of (values : list number) : number :=
  if existsb isNaN values then NaN
  else fold_left max_step values neg_Infinity.

(** [Array.prototype.sort] with the comparator [(a, b) => a - b]: a stable
    sort; a comparator result of NaN counts as zero. *)
Definition compare_positive (c : number) : bool := lt zero c.

Fixpoint sort_insert (cmp : number -> number -> number)
    (x : number) (l : list number) : list number :=
  match l with
  | [] => [x]
  | y :: l' =>
      if compare_positive (cmp y x) then x :: l
      else y :: sort_insert cmp x l'
  end.

Definition sort (cmp : number -> number -> number)
    (l : list number) : list number :=
  fold_left (fun acc x => sort_insert cmp x acc) l [].

End Number.

(** ** Strings and the conversions between strings and Numbers *)

Module Str.
Import Number.

(** White space and line terminators, as skipped by [parseFloat] and by
    the ToNumber conversion (the ASCII ones). *)
Definition is_whitespace (c : ascii) : bool :=
  match c with
  | "009"%char | "010"%char | "011"%char | "012"%char | "013"%char
  | " "%char => true
  | _ => false
  end.

Fixpoint trim_start (s : string) : string :=
  match s with
  | String c s' => if is_whitespace c then trim_start s' else s
  | EmptyString => s
  end.

Fixpoint rev_append (s acc : string) : string :=
  match s with
  | String c s' => rev_append s' (String c acc)
  | EmptyString => acc
  end.

Definition rev (s : string) : string := rev_append s EmptyString.

Definition trim (s : string) : string :=
  rev (trim_start (rev (trim_start s))).

Definition code (c : ascii) : Z := Z.of_N (N_of_ascii c).

Definition digit_of (c : ascii) : option Z :=
  let n := code c in
  if (48 <=? n) && (n <=? 57) then Some (n - 48) else None.

Definition hex_digit_of (c : ascii) : option Z :=
  let n := code c in
  if (48 <=? n) && (n <=? 57) then Some (n - 48)
  else if (97 <=? n) && (n <=? 102) then Some (n - 87)
  else if (65 <=? n) && (n <=? 70) then Some (n - 55)
  else None.

(** Reads a maximal run of decimal digits: the accumulated value, the
    number of digits read, and the rest of the string. *)
Fixpoint read_digits (s : string) (acc len : Z) : Z * Z * string :=
  match s with
  | String c s' =>
      match digit_of c with
      | Some d => read_digits s' (10 * acc + d) (len + 1)
      | None => (acc, len, s)
      end
  | EmptyString => (acc, len, s)
  end.

(** ExponentPart, if one is there: [e] or [E], an optional sign, and at
    least one digit.  Otherwise nothing is consumed. *)
Definition read_exponent (s : string) : Z * string :=
  match s with
  | String c s1 =>
      if Ascii.eqb c "e"%char || Ascii.eqb c "E"%char then
        let '(neg, s2) :=
          match s1 with
          | String "+" r => (false, r)
          | String "-" r => (true, r)
          | _ => (false, s1)
          end in
        let '(v, len, s3) := read_digits s2 0 0 in
        if len =? 0 then (0, s) else (if neg then - v else v, s3)
      else (0, s)
  | EmptyString => (0, s)
  end.

(** The longest prefix that is a StrUnsignedDecimalLiteral other than
    [Infinity]: decimal mantissa, decimal exponent, rest. *)
Definition read_unsigned_decimal (s : string) : option (Z * Z * string) :=
  let '(i, ilen, s1) := read_digits s 0 0 in
  match s1 with
  | String "." s2 =>
      let '(m, flen, s3) := read_digits s2 i 0 in
      if (ilen =? 0) && (flen =? 0) then None
      else
        let '(e, s4) := read_exponent s3 in
        Some (m, e - flen, s4)
  | _ =>
      if ilen =? 0 then None
      else
        let '(e, s4) := read_exponent s1 in
        Some (i, e, s4)
  end.

Fixpoint strip_prefix (p s : string) : option string :=
  match p, s with
  | EmptyString, _ => Some s
  | String a p', String b s' =>
      if Ascii.eqb a b then strip_prefix p' s' else None
  | String _ _, EmptyString => None
  end.

Definition read_unsigned (sign : bool) (s : string)
    : option (number * string) :=
  match strip_prefix "Infinity" s with
  | Some rest => Some (S754_infinity sign, rest)
  | None =>
      match read_unsigned_decimal s with
      | Some (m, e, rest) => Some (of_decimal sign m e, rest)
      | None => None
      end
  end.

(** The longest prefix that is a StrDecimalLiteral, with its value. *)
Definition read_str_decimal (s : string) : option (number * string) :=
  match s with
  | String "+" s' => read_unsigned false s'
  | String "-" s' => read_unsigned true s'
  | _ => read_unsigned false s
  end.

(** [parseFloat] on a string. *)
Definition parseFloat (s : string) : number :=
  match read_str_decimal (trim_start s) with
  | Some (x, _) => x
  | None => NaN
  end.

Fixpoint read_radix (digit : ascii -> option Z) (radix : Z)
    (s : string) (acc : Z) : option Z :=
  match s with
  | String c s' =>
      match digit c with
      | Some d =>
          if d <? radix then read_radix digit radix s' (radix * acc + d)
          else None
      | None => None
      end
  | EmptyString => Some acc
  end.

Definition read_non_decimal (s : string) : option (option Z) :=
  match s with
  | String "0" (String c (String d rest)) =>
      let body := String d rest in
      if Ascii.eqb c "x"%char || Ascii.eqb c "X"%char
      then Some (read_radix hex_digit_of 16 body 0)
      else if Ascii.eqb c "o"%char || Ascii.eqb c "O"%char
      then Some (read_radix digit_of 8 body 0)
      else if Ascii.eqb c "b"%char || Ascii.eqb c "B"%char
      then Some (read_radix digit_of 2 body 0)
      else None
  | _ => None
  end.

(** ToNumber on a string (StringToNumber): the whole trimmed string must
    be a numeric literal; the empty string is [+0]. *)
Definition to_number (s : string) : number :=
  match trim s with
  | EmptyString => zero
  | t =>
      match read_non_decimal t with
      | Some (Some v) => of_decimal false v 0
      | Some None => NaN
      | None =>
          match read_str_decimal t with
          | Some (x, EmptyString) => x
          | _ => NaN
          end
      end
  end.

(** *** Number to string *)

Definition digit_char (d : Z) : ascii := ascii_of_N (Z.to_N (48 + d)).

Fixpoint decimal_go (fuel : nat) (n : Z) (acc : string) : string :=
  match fuel with
  | O => acc
  | S fuel' =>
      let acc' := String (digit_char (n mod 10)) acc in
      if n / 10 =? 0 then acc' else decimal_go fuel' (n / 10) acc'
  end.

(** Decimal digits of a natural number. *)
Definition decimal (n : Z) : string :=
  decimal_go (S (Z.to_nat (Z.log2 n))) n EmptyString.

Fixpoint zeros (n : nat) : string :=
  match n with
  | O => EmptyString
  | S n' => String "0" (zeros n')
  end.

(** [10^n <= num / den], for positive [num] and [den]. *)
Definition pow10_le (num den n : Z) : bool :=
  if 0 <=? n then 10 ^ n * den <=? num else den <=? num * 10 ^ (- n).

Fixpoint adjust_exponent (fuel : nat) (num den n : Z) : Z :=
  match fuel with
  | O => n
  | S fuel' =>
      if pow10_le num den n then adjust_exponent fuel' num den (n + 1)
      else if pow10_le num den (n - 1) then n
      else adjust_exponent fuel' num den (n - 1)
  end.

(** The integer [n] with [10^(n-1) <= num / den < 10^n]. *)
Definition decimal_exponent (num den : Z) : Z :=
  let b := Z.log2 num - Z.log2 den in
  adjust_exponent 8 num den (b * 30103 / 100000).

(** [floor (num / den / 10^scale)]. *)
Definition scaled_floor (num den scale : Z) : Z :=
  if 0 <=? scale then num / (den * 10 ^ scale)
  else (num * 10 ^ (- scale)) / den.

(** Compares [2 * num / den] with [c * 10^scale]. *)
Definition compare_twice (num den c scale : Z) : comparison :=
  if 0 <=? scale then (2 * num ?= c * 10 ^ scale * den)
  else (2 * num * 10 ^ (- scale) ?= c * den).

Definition same (x y : number) : bool :=
  match x, y with
  | S754_nan, S754_nan => true
  | S754_zero a, S754_zero b => Bool.eqb a b
  | S754_infinity a, S754_infinity b => Bool.eqb a b
  | S754_finite a m e, S754_finite b m' e' =>
      Bool.eqb a b && Pos.eqb m m' && (e =? e')
  | _, _ => false
  end.

(** The shortest digit string that reads back as [x = num / den]: tries
    [k = 1, 2, ...] digits; among the [k]-digit candidates that read back
    as [x] the one nearest to [x] is taken, the even one on a tie.
    Returns the digits as an integer [s], their number [k], and the
    position [n] of the decimal point.  Seventeen digits always suffice
    for a binary64 value. *)
Fixpoint shortest (fuel : nat) (x : number) (num den n k : Z)
    : Z * Z * Z :=
  let scale := n - k in
  let lo := scaled_floor num den scale in
  let hi := lo + 1 in
  let ok_lo := same (of_decimal false lo scale) x in
  let ok_hi := same (of_decimal false hi scale) x in
  let pick (s : Z) :=
    if s =? 10 ^ k then (10 ^ (k - 1), k, n + 1) else (s, k, n) in
  match fuel with
  | O => pick lo
  | S fuel' =>
      if ok_lo && ok_hi then
        match compare_twice num den (lo + hi) scale with
        | Lt => pick lo
        | Gt => pick hi
        | Eq => if Z.even lo then pick lo else pick hi
        end
      else if ok_lo then pick lo
      else if ok_hi then pick hi
      else shortest fuel' x num den n (k + 1)
  end.

Definition take_str (n : Z) (s : string) : string :=
  substring 0 (Z.to_nat n) s.

Definition drop_str (n : Z) (s : string) : string :=
  substring (Z.to_nat n) (String.length s - Z.to_nat n) s.

Definition format_digits (digits : string) (k n : Z) : string :=
  if (k <=? n) && (n <=? 21) then
    String.append digits (zeros (Z.to_nat (n - k)))
  else if (0 <? n) && (n <=? 21) then
    String.append (take_str n digits)
      (String "." (drop_str n digits))
  else if (-6 <? n) && (n <=? 0) then
    String.append "0." (String.append (zeros (Z.to_nat (- n))) digits)
  else
    let e := n - 1 in
    let exponent :=
      String "e" (String (if e <? 0 then "-" else "+")
                    (decimal (Z.abs e))) in
    if k =? 1 then String.append digits exponent
    else
      String.append (take_str 1 digits)
        (String "." (String.append (drop_str 1 digits) exponent)).

Definition of_positive_finite (x : number) (m : positive) (e : Z)
    : string :=
  let num := if 0 <=? e then Zpos m * 2 ^ e else Zpos m in
  let den := if 0 <=? e then 1 else 2 ^ (- e) in
  let n := decimal_exponent num den in
  let '(s, k, n') := shortest 17 x num den n 1 in
  format_digits (decimal s) k n'.

(** Number::toString with radix 10. *)
Definition of_number (x : number) : string :=
  match x with
  | S754_nan => "NaN"%string
  | S754_zero _ => "0"%string
  | S754_infinity s => (if s then "-Infinity" else "Infinity")%string
  | S754_finite s m e =>
      let body := of_positive_finite (S754_finite false m e) m e in
      if s then String "-" body else body
  end.

(** [String.prototype.toLowerCase] on ASCII strings. *)
Definition lower_char (c : ascii) : ascii :=
  let n := code c in
  if (65 <=? n) && (n <=? 90) then ascii_of_N (Z.to_N (n + 32)) else c.

Fixpoint toLowerCase (s : string) : string :=
  match s with
  | String c s' => String (lower_char c) (toLowerCase s')
  | EmptyString => EmptyString
  end.

Definition starts_with (s p : string) : bool :=
  match strip_prefix p s with Some _ => true | None => false end.

(** [String.prototype.includes]. *)
Fixpoint includes (s search : string) : bool :=
  if starts_with s search then true
  else
    match s with
    | String _ s' => includes s' search
    | EmptyString => false
    end.

End Str.

(** ** Errors *)

(** The errors the code can throw, and the outcome of a call: the value
    returned or the error thrown. *)
Inductive Thrown : Type := RangeError | TypeError.

Inductive Result (A : Type) : Type :=
  | Returns (a : A)
  | Throws (e : Thrown).

Arguments Returns {A} a.
Arguments Throws {A} e.

#[global] Instance Result_ret : MRet Result := λ A a, Returns a.

#[global] Instance Result_bind : MBind Result := λ A B f m,
  match m with
  | Returns a => f a
  | Throws e => Throws e
  end.

#[global] Instance Result_fmap : FMap Result := λ A B f m,
  match m with
  | Returns a => Returns (f a)
  | Throws e => Throws e
  end.

(** [l.forEach(a => result.push(f(a)))]: the results in order, or the first
    error thrown. *)
Fixpoint for_each {A B} (f : A -> Result B) (l : list A) : Result (list B) :=
  match l with
  | [] => Returns []
  | a :: l' => b ← f a; bs ← for_each f l'; Returns (b :: bs)
  end.

(** ** Cell values, rows and objects *)

Import Number.

(** [VObject text] is an object or a function.  The code only ever converts
    such a value to a primitive, so it is given by [text], the string that
    its conversion yields. *)
Inductive Value : Type :=
  | VUndefined
  | VNull
  | VBool (b : bool)
  | VNum (x : number)
  | VStr (s : string)
  | VObject (text : string).

(** [String(v)]. *)
Definition ToString (v : Value) : string :=
  match v with
  | VUndefined => "undefined"
  | VNull => "null"
  | VBool b => if b then "true" else "false"
  | VNum x => Str.of_number x
  | VStr s => s
  | VObject text => text
  end.

Definition ToNumber (v : Value) : number :=
  match v with
  | VUndefined => NaN
  | VNull => zero
  | VBool b => if b then of_Z 1 else zero
  | VNum x => x
  | VStr s => Str.to_number s
  | VObject text => Str.to_number text
  end.

(** Truthiness, as tested by [||] and [!]. *)
Definition ToBoolean (v : Value) : bool :=
  match v with
  | VUndefined | VNull => false
  | VBool b => b
  | VNum (S754_nan | S754_zero _) => false
  | VNum _ => true
  | VStr s => negb (String.eqb s "")
  | VObject _ => true
  end.

(** The global [parseFloat] and [isFinite]: the argument is converted to a
    string, respectively to a Number, first. *)
Definition parseFloat (v : Value) : number := Str.parseFloat (ToString v).
Definition isFinite (v : Value) : bool := is_finite (ToNumber v).

(** [a === b].  (Two objects are taken to be the same when they convert
    to the same string; the code compares cell values with primitives
    only.) *)
Definition strict_equal (a b : Value) : bool :=
  match a, b with
  | VUndefined, VUndefined | VNull, VNull => true
  | VBool x, VBool y => Bool.eqb x y
  | VNum x, VNum y => SFeqb x y
  | VStr x, VStr y => String.eqb x y
  | VObject x, VObject y => String.eqb x y
  | _, _ => false
  end.

(** [v == null]. *)
Definition loose_equal_null (v : Value) : bool :=
  match v with
  | VUndefined | VNull => true
  | _ => false
  end.

(** [a || b]. *)
Definition or_else (a b : Value) : Value := if ToBoolean a then a else b.

(** How V8 prints a built-in function. *)
Definition native (name : string) : Value :=
  VObject ("function " +:+ name +:+ "() { [native code] }").

(** The members of [Object.prototype], by name: built-in functions, and
    under [__proto__] the prototype object itself. *)
Definition Object_prototype (name : string) : option Value :=
  if String.eqb name "constructor" then Some (native "Object")
  else if existsb (String.eqb name)
            ["toString"; "toLocaleString"; "valueOf"; "hasOwnProperty";
             "isPrototypeOf"; "propertyIsEnumerable"; "__defineGetter__";
             "__defineSetter__"; "__lookupGetter__"; "__lookupSetter__"]
       then Some (native name)
  else if String.eqb name "__proto__" then Some (VObject "[object Object]")
  else None.

(** A name that [Object.prototype] has a member for. *)
Definition inherited (name : string) : bool :=
  match Object_prototype name with
  | Some _ => true
  | None => false
  end.

(** A row object, by its own properties. *)
Abbreviation Row := (gmap string Value).

(** [row[column]]: the row's own property, else the member of
    [Object.prototype] of that name, else [undefined]. *)
Definition get (row : Row) (column : string) : Value :=
  match row !! column with
  | Some v => v
  | None => default VUndefined (Object_prototype column)
  end.

(** An object built by the code and later enumerated: its own properties in
    creation order. *)
Definition Obj (A : Type) : Type := list (string * A).

Fixpoint obj_get {A} (o : Obj A) (key : string) : option A :=
  match o with
  | [] => None
  | (k, a) :: o' => if String.eqb k key then Some a else obj_get o' key
  end.

(** [o[key] = f(o[key])] for a property that exists. *)
Fixpoint obj_update {A} (o : Obj A) (key : string) (f : A -> A) : Obj A :=
  match o with
  | [] => []
  | (k, a) :: o' =>
      if String.eqb k key then (k, f a) :: o'
      else (k, a) :: obj_update o' key f
  end.

(** [o[key] = a] for a new property. *)
Definition obj_add {A} (o : Obj A) (key : string) (a : A) : Obj A :=
  o ++ [(key, a)].

(** [o[key]] is truthy, for an object [o] whose own properties hold arrays:
    the property is its own or a member of [Object.prototype]. *)
Definition truthy_property {A} (o : Obj A) (key : string) : bool :=
  match obj_get o key with
  | Some _ => true
  | None => inherited key
  end.

(** The array index a property key denotes, if any: a canonical decimal
    numeral below [2^32 - 1]. *)
Definition array_index (key : string) : option Z :=
  match key with
  | EmptyString => None
  | String c rest =>
      match Str.read_digits key 0 0 with
      | (v, _, EmptyString) =>
          if Ascii.eqb c "0"%char && negb (String.eqb rest "") then None
          else if v <? 2 ^ 32 - 1 then Some v
          else None
      | _ => None
      end
  end.

Fixpoint insert_by_index {A} (i : Z) (e : string * A)
    (l : list (Z * (string * A))) : list (Z * (string * A)) :=
  match l with
  | [] => [(i, e)]
  | (j, e') :: l' =>
      if i <? j then (i, e) :: l else (j, e') :: insert_by_index i e l'
  end.

Fixpoint index_entries {A} (o : Obj A) : list (Z * (string * A)) :=
  match o with
  | [] => []
  | (k, a) :: o' =>
      match array_index k with
      | Some i => insert_by_index i (k, a) (index_entries o')
      | None => index_entries o'
      end
  end.

Fixpoint named_entries {A} (o : Obj A) : list (string * A) :=
  match o with
  | [] => []
  | (k, a) :: o' =>
      match array_index k with
      | Some _ => named_entries o'
      | None => (k, a) :: named_entries o'
      end
  end.

(** [Object.entries(o)]: array-index keys in ascending order, then the
    other keys in creation order. *)
Definition Object_entries {A} (o : Obj A) : list (string * A) :=
  map snd (index_entries o) ++ named_entries o.

(** ** The functions of the module *)

Definition hundred : number := of_Z 100.
Definition two : number := of_Z 2.

(** The records of the results, and a filter. *)

Module StatisticsSummary.
Record t : Type := mk {
  column : string;
  count : nat;
  mean : number;
  median : number;
  min : number;
  max : number;
  sum : number
}.
End StatisticsSummary.

Module Item.
Record t : Type := mk { value : number; index : nat }.
End Item.

Module Anomaly.
Record t : Type := mk {
  index : nat;
  value : number;
  deviation : number
}.
End Anomaly.

Module MissingReport.
Record t : Type := mk { count : nat; percentage : number }.
End MissingReport.

Module Filter.
Record t : Type := mk {
  column : string;
  operator : string;
  value : Value
}.
End Filter.

Module GroupAggregate.
Record t : Type := mk {
  group : string;
  value : number;
  count : nat
}.
End GroupAggregate.

Section Engine.

(** The greatest number of arguments the engine passes in one call. *)
Variable max_arguments : nat.

(** [Math.min(...values)] and [Math.max(...values)]: a RangeError when
    [values] has more elements than a call can pass. *)
Definition Math_min (values : list number) : Result number :=
  if Nat.leb (length values) max_arguments then Returns (min_of values)
  else Throws RangeError.

Definition Math_max (values : list number) : Result number :=
  if Nat.leb (length values) max_arguments then Returns (max_of values)
  else Throws RangeError.

(** The values of [calculateStatistics]: parse the column, drop what does
    not parse. *)
Definition numeric_values (data : list Row) (column : string)
    : list number :=
  List.filter (fun val => negb (isNaN val))
    (map (fun row => parseFloat (get row column)) data).

(** [Returns None] is the result [null]. *)
Definition calculateStatistics (data : list Row) (column : string)
    : Result (option StatisticsSummary.t) :=
  if Nat.eqb (length data) 0 then Returns None
  else
    let values := numeric_values data column in
    if Nat.eqb (length values) 0 then Returns None
    else
      let sorted := Number.sort (fun a b => sub a b) values in
      let sum := fold_left (fun a b => add a b) values zero in
      let mean := div sum (of_nat (length values)) in
      let median :=
        if Nat.eqb (length sorted mod 2) 0
        then div (add (nth (length sorted / 2 - 1) sorted NaN)
                      (nth (length sorted / 2) sorted NaN)) two
        else nth (length sorted / 2) sorted NaN in
      min ← Math_min values;
      max ← Math_max values;
      Returns (Some {|
        StatisticsSummary.column := column;
        StatisticsSummary.count := length values;
        StatisticsSummary.mean := div (Math_round (mul mean hundred)) hundred;
        StatisticsSummary.median :=
          div (Math_round (mul median hundred)) hundred;
        StatisticsSummary.min := min;
        StatisticsSummary.max := max;
        StatisticsSummary.sum := div (Math_round (mul sum hundred)) hundred
      |}).

Definition findAnomalies (data : list Row) (column : string)
    : list Anomaly.t :=
  if Nat.eqb (length data) 0 then []
  else
    let values :=
      List.filter (fun item => negb (isNaN (Item.value item)))
        (imap (fun idx row =>
                 {| Item.value := parseFloat (get row column);
                    Item.index := idx |}) data) in
    if Nat.ltb (length values) 3 then []
    else
      let numbers := map Item.value values in
      let mean :=
        div (fold_left (fun a b => add a b) numbers zero)
            (of_nat (length numbers)) in
      let variance :=
        div (fold_left (fun sum val => add sum (Math_pow_2 (sub val mean)))
               numbers zero)
            (of_nat (length numbers)) in
      let stdDev := Math_sqrt variance in
      let threshold := mul two stdDev in
      let anomalies :=
        List.filter
          (fun item => gt (Math_abs (sub (Item.value item) mean)) threshold)
          values in
      map (fun anomaly =>
             {| Anomaly.index := Item.index anomaly;
                Anomaly.value := Item.value anomaly;
                Anomaly.deviation :=
                  div (Math_round
                         (mul (div (sub (Item.value anomaly) mean) stdDev)
                              hundred))
                      hundred |})
          anomalies.

Definition is_missing (row : Row) (col : string) : bool :=
  strict_equal (get row col) VNull
  || strict_equal (get row col) VUndefined
  || strict_equal (get row col) (VStr "")
  || strict_equal (get row col) (VStr "N/A").

Definition countMissingValues (data : list Row) (columns : list string)
    : gmap string MissingReport.t :=
  fold_left
    (fun missing col =>
       let missingCount :=
         length (List.filter (fun row => is_missing row col) data) in
       <[col := {|
          MissingReport.count := missingCount;
          MissingReport.percentage :=
            div (Math_round
                   (mul (mul (div (of_nat missingCount) (of_nat (length data)))
                             hundred)
                        hundred))
                hundred |}]> missing)
    columns ∅.

Definition filter_accepts (row : Row) (filter : Filter.t) : bool :=
  let value := get row (Filter.column filter) in
  let filterValue := Filter.value filter in
  if String.eqb (Filter.operator filter) "equals" then
    String.eqb (ToString value) (ToString filterValue)
  else if String.eqb (Filter.operator filter) "contains" then
    Str.includes (Str.toLowerCase (ToString value))
                 (Str.toLowerCase (ToString filterValue))
  else if String.eqb (Filter.operator filter) "greater" then
    gt (parseFloat value) (parseFloat filterValue)
  else if String.eqb (Filter.operator filter) "less" then
    lt (parseFloat value) (parseFloat filterValue)
  else true.

Definition filterData (data : list Row) (filters : list Filter.t)
    : list Row :=
  List.filter (fun row => forallb (filter_accepts row) filters) data.

(** [groups[key].push(row)] throws a TypeError when [groups[key]] is
    not an array of [groups] itself but a member of [Object.prototype]. *)
Definition groupBy (data : list Row) (column : string)
    : Result (Obj (list Row)) :=
  fold_left
    (fun groups row =>
       groups ← groups;
       let key := ToString (or_else (get row column) (VStr "null")) in
       let groups :=
         if truthy_property groups key then groups
         else obj_add groups key [] in
       match obj_get groups key with
       | Some _ => Returns (obj_update groups key (fun rows => rows ++ [row]))
       | None => Throws TypeError
       end)
    data (Returns []).

Definition aggregate (operation : string) (values : list number)
    : Result number :=
  if String.eqb operation "sum" then
    Returns (fold_left (fun a b => add a b) values zero)
  else if String.eqb operation "avg" || String.eqb operation "mean" then
    Returns (div (fold_left (fun a b => add a b) values zero)
                 (of_nat (length values)))
  else if String.eqb operation "count" then Returns (of_nat (length values))
  else if String.eqb operation "min" then Math_min values
  else if String.eqb operation "max" then Math_max values
  else Returns (of_nat (length values)).

(** [operation] is [None] when the caller omits the argument. *)
Definition aggregateGroups (groups : Obj (list Row))
    (aggregateColumn : string) (operation : option string)
    : Result (list GroupAggregate.t) :=
  let operation := default "sum"%string operation in
  for_each
    (fun '(key, rows) =>
       let values :=
         List.filter (fun v => negb (isNaN v))
           (map (fun r => parseFloat (get r aggregateColumn)) rows) in
       aggregated ← aggregate operation values;
       Returns {| GroupAggregate.group := key;
                  GroupAggregate.value :=
                    div (Math_round (mul aggregated hundred)) hundred;
                  GroupAggregate.count := length rows |})
    (Object_entries groups).

End Engine.

Section ColumnTypes.

(** [Date.parse] on a string: implementation-defined outside the ISO
    format, hence a parameter. *)
Variable Date_parse : string -> number.

Definition sample_of (data : list Row) (col : string) : list Value :=
  List.filter
    (fun v => negb (loose_equal_null v)
              && negb (strict_equal v (VStr "")))
    (map (fun row => get row col) (firstn 100 data)).

Definition isNumeric (sample : list Value) : bool :=
  forallb (fun v => negb (isNaN (parseFloat v)) && isFinite v) sample.

Definition isDate (sample : list Value) : bool :=
  existsb (fun v => negb (isNaN (Date_parse (ToString v)))) sample.

Definition isBoolean (sample : list Value) : bool :=
  forallb
    (fun v =>
       existsb (String.eqb (Str.toLowerCase (ToString v)))
         ["true"; "false"; "1"; "0"; "yes"; "no"]%string)
    sample.

Definition type_of_sample (sample : list Value) : string :=
  if Nat.eqb (length sample) 0 then "unknown"
  else if isNumeric sample then "number"
  else if isDate sample then "date"
  else if isBoolean sample then "boolean"
  else "string".

Definition column_type (data : list Row) (col : string) : string :=
  type_of_sample (sample_of data col).

Definition detectColumnTypes (data : list Row) (columns : list string)
    : gmap string string :=
  fold_left (fun types col => <[col := column_type data col]> types)
    columns ∅.

End ColumnTypes.

(** ** The API key check of the language-model client *)

(** The two variables of [process.env] that the check reads and writes; a
    variable that is not set reads as [undefined]. *)
Module Env.
Record t : Type := mk {
  GEMINI_API_KEY : option string;
  GOOGLE_GENERATIVE_AI_API_KEY : option string
}.
End Env.

(** Truthiness of an environment variable: set and not empty. *)
Definition is_set (v : option string) : bool :=
  match v with
  | Some s => negb (String.eqb s "")
  | None => false
  end.

Definition key_not_set_message : string :=
  "GEMINI_API_KEY или GOOGLE_GENERATIVE_AI_API_KEY не установлен. Добавьте ключ в Environment Variables на Vercel".

Definition key_too_short_message : string :=
  "API ключ выглядит неверным (слишком короткий)".

Module Outcome.
Record t : Type := mk {
  log : list string;
  env : Env.t;
  result : string + string
}.
End Outcome.

(** The three lines [validateApiKey] always writes to the console, and the
    fourth it writes when it copies the key over. *)
Definition key_check_log (env : Env.t) (apiKey : option string)
    : list string :=
  [ "[Gemini] Проверка API ключа: " +:+
      (if is_set apiKey
       then "Установлен (" +:+ substring 0 10 (default "" apiKey) +:+ "...)"
       else "НЕ УСТАНОВЛЕН!");
    "[Gemini] GEMINI_API_KEY: " +:+
      (if is_set (Env.GEMINI_API_KEY env)
       then "установлен" else "не установлен");
    "[Gemini] GOOGLE_GENERATIVE_AI_API_KEY: " +:+
      (if is_set (Env.GOOGLE_GENERATIVE_AI_API_KEY env)
       then "установлен" else "не установлен") ]%string.

Definition key_copied_message : string :=
  "[Gemini] Установлен GOOGLE_GENERATIVE_AI_API_KEY из GEMINI_API_KEY".

(** [validateApiKey()]: the lines written to the console, the environment
    afterwards, and either the message of the error thrown ([inl]) or the
    key returned ([inr]). *)
Definition validateApiKey (env : Env.t) : Outcome.t :=
  let apiKey :=
    if is_set (Env.GEMINI_API_KEY env) then Env.GEMINI_API_KEY env
    else Env.GOOGLE_GENERATIVE_AI_API_KEY env in
  let log := key_check_log env apiKey in
  if negb (is_set apiKey) then
    {| Outcome.log := log; Outcome.env := env;
       Outcome.result := inl key_not_set_message |}
  else if Nat.ltb (String.length (default ""%string apiKey)) 20 then
    {| Outcome.log := log; Outcome.env := env;
       Outcome.result := inl key_too_short_message |}
  else if negb (is_set (Env.GOOGLE_GENERATIVE_AI_API_KEY env))
          && is_set (Env.GEMINI_API_KEY env) then
    {| Outcome.log := log ++ [key_copied_message];
       Outcome.env :=
         {| Env.GEMINI_API_KEY := Env.GEMINI_API_KEY env;
            Env.GOOGLE_GENERATIVE_AI_API_KEY := Env.GEMINI_API_KEY env |};
       Outcome.result := inr (default ""%string apiKey) |}
  else
    {| Outcome.log := log; Outcome.env := env;
       Outcome.result := inr (default ""%string apiKey) |}.

(** ** The specification's readings, stated for comparison with the code *)

(** Rounding to two decimals: multiply by 100, round to the nearest
    integer, divide by 100. *)
Definition round_to_2_decimals (x : number) : number :=
  div (Math_round (mul x hundred)) hundred.

(** A cell value parses as a number. *)
Definition parses (v : Value) : Prop := isNaN (parseFloat v) = false.

(** [sub] occurs in [s]. *)
Definition contains (s sub : string) : Prop :=
  ∃ pre post : string, s = pre +:+ sub +:+ post.

(** When a filter holds of a row, operator by operator. *)
Inductive filter_holds (row : Row) (f : Filter.t) : Prop :=
  | holds_equals :
      Filter.operator f = "equals"%string →
      ToString (get row (Filter.column f)) = ToString (Filter.value f) →
      filter_holds row f
  | holds_contains :
      Filter.operator f = "contains"%string →
      contains (Str.toLowerCase (ToString (get row (Filter.column f))))
               (Str.toLowerCase (ToString (Filter.value f))) →
      filter_holds row f
  | holds_greater :
      Filter.operator f = "greater"%string →
      parses (get row (Filter.column f)) →
      parses (Filter.value f) →
      SFcompare (parseFloat (get row (Filter.column f)))
                (parseFloat (Filter.value f)) = Some Gt →
      filter_holds row f
  | holds_less :
      Filter.operator f = "less"%string →
      parses (get row (Filter.column f)) →
      parses (Filter.value f) →
      SFcompare (parseFloat (get row (Filter.column f)))
                (parseFloat (Filter.value f)) = Some Lt →
      filter_holds row f
  | holds_unknown :
      Filter.operator f ∉ ["equals"; "contains"; "greater"; "less"]%string →
      filter_holds row f.

(** A row's value for a column is missing: absent, null, the empty string
    or the string "N/A". *)
Definition missing (col : string) (row : Row) : Prop :=
  match row !! col with
  | None | Some VUndefined | Some VNull => True
  | Some (VStr s) => s = "" ∨ s = "N/A"
  | Some _ => False
  end.

#[global] Instance missing_dec col row : Decision (missing col row).
Proof. unfold missing. destruct (row !! col) as [[]|]; apply _. Defined.

(** A cell value that is neither null (or absent) nor the empty string. *)
Definition non_empty (v : Value) : bool :=
  negb (loose_equal_null v) && negb (strict_equal v (VStr "")).

(** The sample as the prose has it: the first 100 non-empty values of the
    column over the whole dataset. *)
Definition sample_of_whole (data : list Row) (col : string) : list Value :=
  firstn 100 (List.filter non_empty (map (fun row => get row col) data)).

(** What [aggregateGroups] reports for a group without numeric values. *)
Definition empty_group_value (operation : option string) : number :=
  match operation with
  | None => zero
  | Some op =>
      if String.eqb op "avg" || String.eqb op "mean" then NaN
      else if String.eqb op "min" then Infinity
      else if String.eqb op "max" then neg_Infinity
      else zero
  end.

(** ** Concrete datasets *)

Definition cell (column : string) (v : Value) : Row := {[ column := v ]}.

(** [[{x: '0.001'}]] *)
Definition small_value_data : list Row := [cell "x" (VStr "0.001")].

(** [[{x: '3'}, {x: '1'}, {x: '2'}]] *)
Definition three_value_data : list Row :=
  [cell "x" (VStr "3"); cell "x" (VStr "1"); cell "x" (VStr "2")].

(** [[{x: '1.1e-299'}, {x: '1.1e-299'}, {x: '1.1e-299'}]] *)
Definition tiny_identical_data : list Row :=
  [cell "x" (VStr "1.1e-299"); cell "x" (VStr "1.1e-299");
   cell "x" (VStr "1.1e-299")].

(** [[{x: '2'}, {x: 2}, {x: '2.0'}, {x: 'n/a'}]] *)
Definition same_int_data : list Row :=
  [cell "x" (VStr "2"); cell "x" (VNum (of_Z 2)); cell "x" (VStr "2.0");
   cell "x" (VStr "n/a")].

(** [[{a: 1}, {a: null}, {a: ''}, {a: 'N/A'}, {a: 2}]] *)
Definition missing_data : list Row :=
  [cell "a" (VNum (of_Z 1)); cell "a" VNull; cell "a" (VStr "");
   cell "a" (VStr "N/A"); cell "a" (VNum (of_Z 2))].

(** [[{x: '5'}, {x: 5}]] with the filter [{column: 'x', operator:
    'equals', value: 5}]. *)
Definition equals_data : list Row :=
  [cell "x" (VStr "5"); cell "x" (VNum (of_Z 5))].

Definition equals_filter : Filter.t :=
  {| Filter.column := "x"; Filter.operator := "equals";
     Filter.value := VNum (of_Z 5) |}.

(** [[{g: 'a', v: 1}, {g: 'a', v: 2}, {g: 'b', v: 3}]] *)
Definition sales_data : list Row :=
  [ {[ "g"%string := VStr "a"; "v"%string := VNum (of_Z 1) ]};
    {[ "g"%string := VStr "a"; "v"%string := VNum (of_Z 2) ]};
    {[ "g"%string := VStr "b"; "v"%string := VNum (of_Z 3) ]} ].

(** [[{g: 0}, {g: ''}, {g: false}]] *)
Definition falsy_data : list Row :=
  [cell "g" (VNum zero); cell "g" (VStr ""); cell "g" (VBool false)].

(** [{k: [{v: 'abc'}]}] *)
Definition empty_group : Obj (list Row) :=
  [("k"%string, [cell "v" (VStr "abc")])].

(** One hundred rows [{c: null}] followed by [{c: '5'}]. *)
Definition late_value_data : list Row :=
  repeat (cell "c" VNull) 100 ++ [cell "c" (VStr "5")].

(** [[{c: '1'}, {c: '0'}, {c: '1'}]] *)
Definition zero_one_data : list Row :=
  [cell "c" (VStr "1"); cell "c" (VStr "0"); cell "c" (VStr "1")].


(** Two hundred thousand rows [{x: 1}]. *)
Definition many_rows_data : list Row :=
  repeat (cell "x" (VNum (of_Z 1))) (200 * 1000).


(** [[{g: 'a'}, {g: 'constructor'}]] *)
Definition constructor_key_data : list Row :=
  [cell "g" (VStr "a"); cell "g" (VStr "constructor")].

(** [{column: 'g', operator: 'equals', value: 'a'}] *)
Definition group_is_a : Filter.t :=
  {| Filter.column := "g"; Filter.operator := "equals";
     Filter.value := VStr "a" |}.

(** [{column: 'x', operator: 'less', value: 10}] *)
Definition less_than_ten : Filter.t :=
  {| Filter.column := "x"; Filter.operator := "less";
     Filter.value := VNum (of_Z 10) |}.

(** [[{x: 1.5}, {x: -2}]] *)
Definition number_cells_data : list Row :=
  [cell "x" (VNum (of_decimal false 15 (-1))); cell "x" (VNum (of_Z (-2)))].

(** [{k: [{x: '3'}, {x: '1'}, {x: '2'}]}] *)
Definition numeric_group : Obj (list Row) :=
  [("k"%string, three_value_data)].

(** An environment with only [GEMINI_API_KEY] set, to a key of 26
    characters. *)
Definition gemini_only_env : Env.t :=
  {| Env.GEMINI_API_KEY := Some "abcdefghijklmnopqrstuvwxyz"%string;
     Env.GOOGLE_GENERATIVE_AI_API_KEY := None |}.

(** ** Auxiliary definitions for the proofs *)

Definition not_NaN (x : number) : Prop := isNaN x = false.

(** A Number that is a zero or NaN: the difference of two equal Numbers. *)
Definition zero_or_NaN (x : number) : Prop :=
  match x with
  | S754_zero _ | S754_nan => True
  | _ => False
  end.

(** A Number that is not below zero. *)
Definition signless (x : number) : Prop :=
  match x with
  | S754_infinity s | S754_finite s _ _ => s = false
  | _ => True
  end.


(** A name that is not the name of a member of [Object.prototype]. *)
Definition plain (name : string) : Prop := Object_prototype name = None.

(** The summary [calculateStatistics] builds from the parsed values. *)
Definition summary_of (column : string) (values : list number)
    : StatisticsSummary.t :=
  let sorted := Number.sort (λ a b, sub a b) values in
  let sum := fold_left (λ a b, add a b) values zero in
  let mean := div sum (of_nat (length values)) in
  let median :=
    if Nat.eqb (length sorted mod 2) 0
    then div (add (nth (length sorted / 2 - 1) sorted NaN)
                  (nth (length sorted / 2) sorted NaN)) two
    else nth (length sorted / 2) sorted NaN in
  {| StatisticsSummary.column := column;
     StatisticsSummary.count := length values;
     StatisticsSummary.mean := div (Math_round (mul mean hundred)) hundred;
     StatisticsSummary.median :=
       div (Math_round (mul median hundred)) hundred;
     StatisticsSummary.min := min_of values;
     StatisticsSummary.max := max_of values;
     StatisticsSummary.sum := div (Math_round (mul sum hundred)) hundred |}.

(** What [aggregate] returns when it returns. *)
Definition aggregate_value (operation : string) (values : list number)
    : number :=
  if String.eqb operation "sum" then
    fold_left (λ a b, add a b) values zero
  else if String.eqb operation "avg" || String.eqb operation "mean" then
    div (fold_left (λ a b, add a b) values zero) (of_nat (length values))
  else if String.eqb operation "count" then of_nat (length values)
  else if String.eqb operation "min" then min_of values
  else if String.eqb operation "max" then max_of values
  else of_nat (length values).

(** The records [aggregateGroups] returns when it returns. *)
Definition records_of (groups : Obj (list Row)) (aggregateColumn : string)
    (operation : option string) : list GroupAggregate.t :=
  map (λ '(key, rows),
         {| GroupAggregate.group := key;
            GroupAggregate.value :=
              round_to_2_decimals
                (aggregate_value (default "sum"%string operation)
                   (numeric_values rows aggregateColumn));
            GroupAggregate.count := length rows |})
    (Object_entries groups).

(** The calls [Math.min(...values)] and [Math.max(...values)] that
    [aggregateGroups] makes stay within the arguments the engine passes:
    the operation is neither "min" nor "max", or no group has more numeric
    values than that. *)
Definition within_arguments (limit : nat) (groups : Obj (list Row))
    (aggregateColumn : string) (operation : option string) : Prop :=
  default "sum"%string operation ∈ ["min"; "max"]%string →
  ∀ key rows, (key, rows) ∈ groups →
    (length (numeric_values rows aggregateColumn) ≤ limit)%nat.

(** The key under which [groupBy] files a row, and the body of its loop
    for a key that is not the name of a member of [Object.prototype]. *)
Definition group_key (row : Row) (column : string) : string :=
  ToString (or_else (get row column) (VStr "null")).

Definition group_step (column : string) (groups : Obj (list Row))
    (row : Row) : Obj (list Row) :=
  let key := group_key row column in
  let groups :=
    match obj_get groups key with
    | None => obj_add groups key []
    | Some _ => groups
    end in
  obj_update groups key (λ rows, rows ++ [row]).

(** The body of the loop of [groupBy], as it is. *)
Definition group_round (column : string) (groups : Result (Obj (list Row)))
    (row : Row) : Result (Obj (list Row)) :=
  groups ← groups;
  let key := ToString (or_else (get row column) (VStr "null")) in
  let groups :=
    if truthy_property groups key then groups else obj_add groups key [] in
  match obj_get groups key with
  | Some _ => Returns (obj_update groups key (λ rows, rows ++ [row]))
  | None => Throws TypeError
  end.

(** Case analysis on every integer and positive comparison in sight. *)
Ltac order_cases :=
  repeat match goal with
  | |- context [(?a ?= ?b)%Z] =>
      let H := fresh in destruct (Z.compare_spec a b) as [H|H|H]
  | |- context [(?a ?= ?b)%positive] =>
      let H := fresh in destruct (Pos.compare_spec a b) as [H|H|H]
  | H : context [(?a ?= ?b)%Z] |- _ =>
      let H' := fresh in destruct (Z.compare_spec a b) as [H'|H'|H']
  | H : context [(?a ?= ?b)%positive] |- _ =>
      let H' := fresh in destruct (Pos.compare_spec a b) as [H'|H'|H']
  end; simpl in *; try done; try lia.

(** What the loop of [groupBy] keeps true: keys are distinct, no group is
    empty, every row sits in the group of its key, and the groups together
    hold the rows seen so far. *)
Definition groups_invariant (column : string) (groups : Obj (list Row))
    (seen : list Row) : Prop :=
  NoDup (map fst groups)
  ∧ (∀ key rows, (key, rows) ∈ groups →
       rows ≠ [] ∧ ∀ row, row ∈ rows → group_key row column = key)
  ∧ concat (map snd groups) ≡ₚ seen.

(** The keys of a concrete dataset are plain names. *)
Ltac plain_rows :=
  let row := fresh "row" in
  let Hrow := fresh "Hrow" in
  intros row Hrow; apply list_elem_of_In in Hrow;
  repeat (destruct Hrow as [<-|Hrow]; [vm_compute; reflexivity|]);
  destruct Hrow.

(** A string whose first character is a decimal digit. *)
Definition starts_with_digit (s : string) : Prop :=
  match s with
  | String c _ => is_Some (Str.digit_of c)
  | EmptyString => False
  end.

(** The leaves of a case analysis on the outcome of [validateApiKey]. *)
Ltac validate_leaf :=
  first
    [ done
    | by intros [= ?]
    | by intros [? ?]
    | by (intros _; eexists; eauto)
    | by intros (? & [= <-] & ? & ?)
    | by intros (? & ? & ?)
    | intros (? & [= <-] & ? & ?); lia ].

(** * Properties *)

(** ** The runtime model on known values *)

Example parseFloat_prefix :
  Str.parseFloat "  12.5px" = of_decimal false 125 (-1)
  ∧ Str.parseFloat "1e3" = of_Z 1000
  ∧ Str.parseFloat ".5" = of_decimal false 5 (-1)
  ∧ Str.parseFloat "-Infinity" = neg_Infinity
  ∧ Str.parseFloat "abc" = NaN
  ∧ Str.parseFloat "" = NaN
  ∧ parseFloat VNull = NaN
  ∧ parseFloat VUndefined = NaN
  ∧ parseFloat (VNum (of_Z 5)) = of_Z 5.
Proof. repeat apply conj; vm_compute; reflexivity. Qed.

Example to_number_whole_string :
  Str.to_number " 12 " = of_Z 12
  ∧ Str.to_number "12px" = NaN
  ∧ Str.to_number "" = zero
  ∧ Str.to_number "0x1F" = of_Z 31
  ∧ Str.to_number "1e400" = Infinity.
Proof. repeat apply conj; vm_compute; reflexivity. Qed.

Example of_number_shortest :
  Str.of_number (of_Z 5) = "5"%string
  ∧ Str.of_number (of_decimal false 1 (-1)) = "0.1"%string
  ∧ Str.of_number (add (of_decimal false 1 (-1)) (of_decimal false 2 (-1)))
    = "0.30000000000000004"%string
  ∧ Str.of_number (of_decimal false 1 21) = "1e+21"%string
  ∧ Str.of_number (of_decimal false 1 (-7)) = "1e-7"%string
  ∧ Str.of_number (of_decimal true 125 (-2)) = "-1.25"%string
  ∧ Str.of_number neg_zero = "0"%string
  ∧ Str.of_number NaN = "NaN"%string.
Proof. repeat apply conj; vm_compute; reflexivity. Qed.

Example Math_round_ties :
  Math_round (of_decimal false 25 (-1)) = of_Z 3
  ∧ Math_round (of_decimal true 25 (-1)) = of_Z (-2)
  ∧ Math_round (of_decimal true 5 (-1)) = neg_zero
  ∧ Math_round (of_decimal false 49 (-2)) = zero
  ∧ Math_round NaN = NaN
  ∧ Math_round Infinity = Infinity.
Proof. repeat apply conj; vm_compute; reflexivity. Qed.

Example Object_entries_order :
  map fst (Object_entries
             [("b"%string, 1); ("10"%string, 2); ("a"%string, 3);
              ("2"%string, 4); ("02"%string, 5)])
  = ["2"; "10"; "b"; "a"; "02"]%string.
Proof. vm_compute. reflexivity. Qed.

(** Grouping [[{g:'a',v:1},{g:'a',v:2},{g:'b',v:3}]] by [g] and summing
    [v]: a has sum 3 over 2 rows, b has sum 3 over 1 row. *)
Example groupBy_then_sum (max_arguments : nat) :
  (groups ← groupBy sales_data "g";
   aggregateGroups max_arguments groups "v" (Some "sum"%string))
  = Returns
      [ {| GroupAggregate.group := "a"; GroupAggregate.value := of_Z 3;
           GroupAggregate.count := 2 |};
        {| GroupAggregate.group := "b"; GroupAggregate.value := of_Z 3;
           GroupAggregate.count := 1 |} ].
Proof. vm_compute. reflexivity. Qed.

(** Reading a property that a row does not have: [undefined], unless
    [Object.prototype] has a member of that name. *)
Example get_inherited :
  get (cell "a" (VNum (of_Z 1))) "b" = VUndefined
  ∧ get (cell "a" (VNum (of_Z 1))) "a" = VNum (of_Z 1)
  ∧ ToString (get (cell "a" (VNum (of_Z 1))) "constructor")
    = "function Object() { [native code] }"%string
  ∧ ToString (get (cell "a" (VNum (of_Z 1))) "toString")
    = "function toString() { [native code] }"%string
  ∧ ToString (get (cell "a" (VNum (of_Z 1))) "__proto__")
    = "[object Object]"%string
  ∧ get (cell "toString" VNull) "toString" = VNull
  ∧ parseFloat (get (cell "a" (VNum (of_Z 1))) "valueOf") = NaN.
Proof. repeat apply conj; vm_compute; reflexivity. Qed.

(** ** The order on Numbers *)
Lemma le_refl (x : number) : isNaN x = false → le x x = true.
Proof.
  destruct x as [[]|[]| |[] m e]; intros; try done;
    unfold le, SFleb, SFcompare;
    change (Pos.compare_cont Eq m m) with (m ?= m)%positive;
    order_cases.
Qed.

Lemma lt_le (x y : number) : lt x y = true → le x y = true.
Proof. unfold lt, le, SFltb, SFleb. by destruct (SFcompare x y) as [[]|]. Qed.

Lemma not_lt_le (x y : number) :
  isNaN x = false → isNaN y = false → lt x y = false → le y x = true.
Proof.
  destruct x as [[]|[]| |[] mx ex], y as [[]|[]| |[] my ey];
    intros ? ?; try done;
    unfold lt, le, SFltb, SFleb, SFcompare;
    change (Pos.compare_cont Eq ?a ?b) with (a ?= b)%positive;
    order_cases.
Qed.

Lemma le_trans (x y z : number) :
  le x y = true → le y z = true → le x z = true.
Proof.
  destruct x as [[]|[]| |[] mx ex], y as [[]|[]| |[] my ey],
           z as [[]|[]| |[] mz ez]; try done;
    unfold le, SFleb, SFcompare;
    change (Pos.compare_cont Eq ?a ?b) with (a ?= b)%positive;
    order_cases.
Qed.

(** ** Signs of square roots and differences *)

Lemma binary_round_aux_sign (s : bool) (m e : Z) (l : location) :
  match binary_round_aux prec emax s m e l with
  | S754_zero s' | S754_infinity s' | S754_finite s' _ _ => s' = s
  | S754_nan => True
  end.
Proof.
  unfold binary_round_aux.
  destruct (shr_fexp prec emax m e l) as [mrs' e'].
  destruct (shr_fexp prec emax _ e' loc_Exact) as [mrs'' e''].
  destruct (shr_m mrs''); [done| |done].
  by destruct (e'' <=? emax - prec).
Qed.

Lemma Math_sqrt_signless (x : number) : signless (Math_sqrt x).
Proof.
  destruct x as [s|[]| |[] m e]; try done.
  unfold Math_sqrt, SFsqrt.
  destruct (SFsqrt_core_binary prec emax (Z.pos m) e) as [[mz ez] lz].
  pose proof (binary_round_aux_sign false mz ez lz) as H.
  by destruct (binary_round_aux prec emax false mz ez lz).
Qed.

Lemma two_finite : two = S754_finite false 4503599627370496 (-51).
Proof. vm_compute. reflexivity. Qed.

Lemma threshold_signless (x : number) :
  signless x → signless (mul two x).
Proof.
  rewrite two_finite. destruct x as [s|s| |s m e]; try done.
  simpl. intros ->.
  pose proof (binary_round_aux_sign false
                (Z.pos (4503599627370496 * m)) (-51 + e) loc_Exact) as H.
  by destruct (binary_round_aux prec emax false _ _ _).
Qed.

Lemma sub_of_equal (x y : number) :
  SFcompare x y = Some Eq → zero_or_NaN (sub x y).
Proof.
  destruct x as [[]|[]| |[] mx ex], y as [[]|[]| |[] my ey]; try done;
    unfold SFcompare;
    change (Pos.compare_cont Eq mx my) with (mx ?= my)%positive;
    intros H;
    (assert (ex = ey ∧ mx = my) as [-> ->]
       by (destruct (Z.compare_spec ex ey); try done;
           destruct (Pos.compare_spec mx my); done));
    unfold sub, SFsub; by rewrite Z.sub_diag.
Qed.

Lemma not_above_threshold (d t : number) :
  zero_or_NaN d → signless t → gt (Math_abs d) t = false.
Proof.
  destruct d as [sd|sd| |sd md ed]; try done; intros _.
  - destruct t as [st|st| |st mt et]; try done; simpl; by intros ->.
  - by destruct t.
Qed.

(** ** Arithmetic that never yields NaN *)

Lemma iter_pos_invariant {A} (P : A → Prop) (f : A → A) (n : positive)
    (x : A) :
  (∀ y, P y → P (f y)) → P x → P (SpecFloat.iter_pos f n x).
Proof.
  intros Hf. revert x. induction n as [n IH|n IH|]; intros x Hx; simpl; auto.
Qed.

Lemma shr_1_nonneg (mrs : shr_record) : 0 ≤ shr_m mrs → 0 ≤ shr_m (shr_1 mrs).
Proof. destruct mrs as [[|[p|p|]|p] r s]; simpl; lia. Qed.

Lemma shr_fexp_nonneg (m e : Z) (l : location) :
  0 ≤ m → 0 ≤ shr_m (fst (shr_fexp prec emax m e l)).
Proof.
  intros Hm. unfold shr_fexp, shr.
  assert (shr_m (shr_record_of_loc m l) = m) as Hrec
    by (by destruct l as [|[]]).
  destruct (fexp prec emax (Zdigits2 m + e) - e) as [|n|n]; simpl;
    try (by rewrite Hrec).
  apply (iter_pos_invariant (λ r, 0 ≤ shr_m r)); [apply shr_1_nonneg|].
  by rewrite Hrec.
Qed.

Lemma round_nearest_even_nonneg (m : Z) (l : location) :
  0 ≤ m → 0 ≤ round_nearest_even m l.
Proof.
  intros Hm. destruct l as [|[]]; simpl; try lia. destruct (Z.even m); lia.
Qed.

(** Rounding a magnitude never produces NaN, and keeps the sign. *)
Lemma binary_round_aux_nonneg (s : bool) (m e : Z) (l : location) :
  0 ≤ m →
  match binary_round_aux prec emax s m e l with
  | S754_zero s' | S754_infinity s' | S754_finite s' _ _ => s' = s
  | S754_nan => False
  end.
Proof.
  intros Hm. unfold binary_round_aux.
  pose proof (shr_fexp_nonneg m e l Hm) as H1.
  destruct (shr_fexp prec emax m e l) as [mrs' e']. simpl in H1.
  pose proof (shr_fexp_nonneg _ e' loc_Exact
                (round_nearest_even_nonneg _ (loc_of_shr_record mrs') H1))
    as H2.
  destruct (shr_fexp prec emax _ e' loc_Exact) as [mrs'' e'']. simpl in H2.
  destruct (shr_m mrs''); [done| |lia].
  by destruct (e'' <=? emax - prec).
Qed.

Lemma binary_normalize_not_NaN (m e : Z) :
  isNaN (binary_normalize prec emax m e false) = false.
Proof.
  destruct m as [|p|p]; [done| |]; unfold binary_normalize, binary_round.
  - destruct (shl_align p e _) as [mz ez].
    pose proof (binary_round_aux_nonneg false (Z.pos mz) ez loc_Exact
                  ltac:(lia)) as H.
    by destruct (binary_round_aux prec emax false _ _ _).
  - destruct (shl_align p e _) as [mz ez].
    pose proof (binary_round_aux_nonneg true (Z.pos mz) ez loc_Exact
                  ltac:(lia)) as H.
    by destruct (binary_round_aux prec emax true _ _ _).
Qed.

Lemma add_not_NaN (a b : number) :
  isNaN a = false → is_finite b = true → isNaN (add a b) = false.
Proof.
  destruct a as [sa|sa| |sa ma ea], b as [sb|sb| |sb mb eb]; try done.
  - intros _ _. by destruct sa, sb.
  - intros _ _. apply binary_normalize_not_NaN.
Qed.

Lemma mul_finite_not_NaN (a : number) (s : bool) (m : positive) (e : Z) :
  isNaN a = false → isNaN (mul a (S754_finite s m e)) = false.
Proof.
  destruct a as [sa|sa| |sa ma ea]; try done. intros _.
  unfold mul, SFmul.
  pose proof (binary_round_aux_nonneg (xorb sa s) (Z.pos (ma * m))
                (ea + e) loc_Exact ltac:(lia)) as H.
  by destruct (binary_round_aux prec emax _ _ _ _).
Qed.

Lemma div_finite_not_NaN (a : number) (s : bool) (m : positive) (e : Z) :
  isNaN a = false → isNaN (div a (S754_finite s m e)) = false.
Proof.
  destruct a as [sa|sa| |sa ma ea]; try done. intros _.
  unfold div, SFdiv.
  destruct (SFdiv_core_binary prec emax (Z.pos ma) ea (Z.pos m) e)
    as [[q e'] l] eqn:Hcore.
  assert (0 ≤ q) as Hq.
  { unfold SFdiv_core_binary in Hcore.
    set (m' := match _ - _ - _ with
               | 0 => Z.pos ma | Z.pos _ => _ | Z.neg _ => 0 end) in Hcore.
    assert (0 ≤ m') as Hm'.
    { subst m'. destruct (_ - _ - _); [lia| |lia].
      apply Z.shiftl_nonneg. lia. }
    pose proof (Z.div_pos m' (Z.pos m) Hm' eq_refl) as Hdiv.
    unfold Z.div in Hdiv.
    destruct (Z.div_eucl m' (Z.pos m)) as [q' r]. simpl in Hdiv.
    by injection Hcore as <- _ _. }
  pose proof (binary_round_aux_nonneg (xorb sa s) q e' l Hq) as H.
  by destruct (binary_round_aux prec emax _ _ _ _).
Qed.

Lemma Math_round_not_NaN (x : number) :
  isNaN x = false → isNaN (Math_round x) = false.
Proof.
  destruct x as [s|s| |s m e]; try done. intros _. unfold Math_round.
  destruct (0 <=? e); [done|].
  destruct (_ =? 0); [done|]. apply binary_normalize_not_NaN.
Qed.

Lemma hundred_finite : hundred = S754_finite false 7036874417766400 (-46).
Proof. vm_compute. reflexivity. Qed.

(** Rounding to two decimals keeps NaN out. *)
Lemma round_to_2_decimals_not_NaN (x : number) :
  isNaN x = false → isNaN (round_to_2_decimals x) = false.
Proof.
  intros Hx. unfold round_to_2_decimals. rewrite hundred_finite.
  by apply div_finite_not_NaN, Math_round_not_NaN, mul_finite_not_NaN.
Qed.

Lemma digits2_pos_lower (p : positive) :
  2 ^ (Z.pos (digits2_pos p) - 1) ≤ Z.pos p.
Proof.
  induction p as [p IH|p IH|]; simpl; [| |done].
  - rewrite Pos2Z.inj_succ.
    replace (Z.succ (Z.pos (digits2_pos p)) - 1)
      with (Z.succ (Z.pos (digits2_pos p) - 1)) by lia.
    rewrite Z.pow_succ_r by lia. lia.
  - rewrite Pos2Z.inj_succ.
    replace (Z.succ (Z.pos (digits2_pos p)) - 1)
      with (Z.succ (Z.pos (digits2_pos p) - 1)) by lia.
    rewrite Z.pow_succ_r by lia. lia.
Qed.

Lemma digits2_pos_bound (p : positive) (n : Z) :
  Z.pos p < 2 ^ n → Z.pos (digits2_pos p) ≤ n.
Proof.
  intros Hp. pose proof (digits2_pos_lower p) as Hlow.
  destruct (Z_le_gt_dec (Z.pos (digits2_pos p)) n) as [|Hgt]; [done|].
  assert (0 ≤ n) as Hn.
  { destruct (Z_le_gt_dec 0 n); [done|].
    rewrite Z.pow_neg_r in Hp by lia. lia. }
  assert (2 ^ n ≤ 2 ^ (Z.pos (digits2_pos p) - 1))
    by (apply Z.pow_le_mono_r; lia).
  lia.
Qed.

Lemma digits2_pos_shift (p q : positive) :
  digits2_pos (Pos.iter xO p q) = (digits2_pos p + q)%positive.
Proof.
  induction q as [|q IH] using Pos.peano_ind.
  - simpl. lia.
  - rewrite Pos.iter_succ. simpl. rewrite IH. lia.
Qed.

(** A positive integer below [2^53] is a Number of its own: the
    conversion is a positive finite value. *)
Lemma of_Z_small (p : positive) :
  Z.pos p < 2 ^ 53 →
  ∃ m e, of_Z (Z.pos p) = S754_finite false m e.
Proof.
  intros Hp. pose proof (digits2_pos_bound p 53 Hp) as Hd.
  unfold of_Z, binary_normalize, binary_round.
  assert (∃ mz ez,
            shl_align p 0 (fexp prec emax (Z.pos (digits2_pos p) + 0))
            = (mz, ez)
            ∧ Z.pos (digits2_pos mz) = 53 ∧ -52 ≤ ez ≤ 0)
    as (mz & ez & -> & Hdz & Hez).
  { unfold shl_align, fexp, emin, prec, emax in *.
    rewrite Z.add_0_r, Z.sub_0_r.
    rewrite Z.max_l by lia.
    destruct (Z.pos (digits2_pos p) - 53) as [|q|q] eqn:Hq; [|lia|].
    - exists p, 0. split; [done|]. lia.
    - exists (Pos.iter xO p q), (Z.neg q). split; [done|].
      rewrite digits2_pos_shift. lia. }
  unfold binary_round_aux, shr_fexp, fexp, emin.
  cbn [Zdigits2]. rewrite Hdz.
  assert (Z.max (53 + ez - prec) (3 - emax - prec) - ez = 0) as ->
    by (unfold prec, emax; lia).
  cbn [shr shr_record_of_loc shr_m loc_of_shr_record round_nearest_even
       Zdigits2].
  rewrite Hdz.
  assert (Z.max (53 + ez - prec) (3 - emax - prec) - ez = 0) as ->
    by (unfold prec, emax; lia).
  cbn [shr shr_m].
  assert ((ez <=? emax - prec) = true) as ->
    by (apply Z.leb_le; unfold prec, emax; lia).
  eauto.
Qed.

Lemma of_nat_small (k : nat) :
  (0 < k)%nat → Z.of_nat k < 2 ^ 53 →
  ∃ m e, of_nat k = S754_finite false m e.
Proof.
  intros Hk Hlt. unfold of_nat.
  destruct (Z.of_nat k) as [|p|p] eqn:Hp; [lia| |lia].
  by apply of_Z_small.
Qed.

(** Dividing by a small positive count keeps NaN out. *)
Lemma div_count_not_NaN (x : number) (k : nat) :
  (0 < k)%nat → Z.of_nat k < 2 ^ 53 →
  isNaN x = false → isNaN (div x (of_nat k)) = false.
Proof.
  intros Hk Hlt Hx. destruct (of_nat_small k Hk Hlt) as (m & e & ->).
  by apply div_finite_not_NaN.
Qed.

(** Reading a decimal literal never gives NaN. *)
Lemma of_ratio_not_NaN (s : bool) (num : Z) (den : positive) :
  isNaN (of_ratio s num den) = false.
Proof.
  unfold of_ratio. destruct num as [|p|p]; [done| |done].
  set (k := Z.max 0 _).
  pose proof (Z_div_mod (Z.shiftl (Z.pos p) k) (Z.pos den) ltac:(lia)) as H.
  destruct (Z.div_eucl _ _) as [q r]. destruct H as [Heq Hr].
  assert (0 ≤ q) as Hq.
  { pose proof (Z.shiftl_nonneg (Z.pos p) k). nia. }
  pose proof (binary_round_aux_nonneg s q (- k)
                (if r =? 0 then loc_Exact
                 else loc_Inexact (2 * r ?= Z.pos den)) Hq) as H.
  by destruct (binary_round_aux _ _ _ _ _ _).
Qed.

Lemma of_decimal_not_NaN (s : bool) (m e : Z) :
  isNaN (of_decimal s m e) = false.
Proof. destruct e; apply of_ratio_not_NaN. Qed.

Lemma fold_add_not_NaN (values : list number) (acc : number) :
  (∀ v, v ∈ values → is_finite v = true) → isNaN acc = false →
  isNaN (fold_left (λ a b, add a b) values acc) = false.
Proof.
  revert acc. induction values as [|v values IH]; intros acc Hfin Hacc;
    simpl; [done|].
  apply IH.
  - intros w Hw. apply Hfin. apply elem_of_cons. by right.
  - apply add_not_NaN; [done|]. apply Hfin. apply elem_of_cons. by left.
Qed.

(** ** Arithmetic that keeps the sign *)










(** ** Minimum, maximum and sorting *)

Lemma existsb_isNaN (l : list number) :
  Forall not_NaN l → existsb isNaN l = false.
Proof.
  induction 1 as [|x l Hx _ IH]; [done|]. simpl. by rewrite Hx, IH.
Qed.

Lemma min_step_cases lowest x :
  min_step lowest x = x ∨ min_step lowest x = lowest.
Proof.
  unfold min_step.
  destruct x as [[]|[]| |[] mx ex], lowest as [[]|[]| |[] ml el];
    try (by left); try (by right);
    match goal with |- context [if ?b then _ else _] => destruct b end;
    auto.
Qed.

Lemma min_step_le lowest x :
  not_NaN lowest → not_NaN x →
  le (min_step lowest x) lowest = true ∧ le (min_step lowest x) x = true.
Proof.
  intros Hl Hx. unfold min_step.
  destruct (lt x lowest) eqn:Hlt.
  - assert (le x lowest = true ∧ le x x = true) as [? ?]
      by (split; [by apply lt_le | by apply le_refl]).
    by destruct x as [[]|[]| |[] mx ex], lowest as [[]|[]| |[] ml el].
  - assert (le lowest lowest = true ∧ le lowest x = true) as [? ?]
      by (split; [by apply le_refl | by apply not_lt_le]).
    by destruct x as [[]|[]| |[] mx ex], lowest as [[]|[]| |[] ml el].
Qed.

Lemma min_step_not_NaN lowest x :
  not_NaN lowest → not_NaN x → not_NaN (min_step lowest x).
Proof. intros. by destruct (min_step_cases lowest x) as [->| ->]. Qed.

Lemma fold_min_le (l : list number) (lowest : number) :
  Forall not_NaN l → not_NaN lowest →
  not_NaN (fold_left min_step l lowest)
  ∧ le (fold_left min_step l lowest) lowest = true
  ∧ ∀ v, In v l → le (fold_left min_step l lowest) v = true.
Proof.
  intros Hl. revert lowest.
  induction Hl as [|x l Hx _ IH]; intros lowest Hlow; simpl.
  - split; [done|]. split; [by apply le_refl | tauto].
  - destruct (min_step_le lowest x Hlow Hx) as [H1 H2].
    destruct (IH (min_step lowest x)) as (Hn & Hle & Hall);
      [by apply min_step_not_NaN|].
    split; [done|]. split; [by eapply le_trans|].
    intros v [<-|Hv]; [by eapply le_trans | by apply Hall].
Qed.

Lemma fold_min_in (l : list number) (lowest : number) :
  fold_left min_step l lowest = lowest ∨ In (fold_left min_step l lowest) l.
Proof.
  revert lowest. induction l as [|x l IH]; intros lowest; simpl; [by left|].
  destruct (IH (min_step lowest x)) as [->|Hin]; [|by right; right].
  destruct (min_step_cases lowest x) as [->| ->]; [right; by left | by left].
Qed.

Lemma le_Infinity_inv (v : number) : le Infinity v = true → v = Infinity.
Proof. by destruct v as [[]|[]| |[] m e]. Qed.

Lemma min_of_spec (values : list number) :
  Forall not_NaN values → values ≠ [] →
  In (min_of values) values
  ∧ ∀ v, In v values → le (min_of values) v = true.
Proof.
  intros Hn Hne. unfold min_of. rewrite existsb_isNaN by done.
  destruct (fold_min_le values Infinity Hn eq_refl) as (_ & _ & Hall).
  split; [|done].
  destruct (fold_min_in values Infinity) as [Heq|Hin]; [|done].
  destruct values as [|v values]; [done|].
  rewrite Heq in *. rewrite (le_Infinity_inv v); [by left|].
  apply Hall. by left.
Qed.

Lemma max_step_cases highest x :
  max_step highest x = x ∨ max_step highest x = highest.
Proof.
  unfold max_step.
  destruct x as [[]|[]| |[] mx ex], highest as [[]|[]| |[] mh eh];
    try (by left); try (by right);
    match goal with |- context [if ?b then _ else _] => destruct b end;
    auto.
Qed.

Lemma max_step_le highest x :
  not_NaN highest → not_NaN x →
  le highest (max_step highest x) = true ∧ le x (max_step highest x) = true.
Proof.
  intros Hh Hx. unfold max_step.
  destruct (lt highest x) eqn:Hlt.
  - assert (le highest x = true ∧ le x x = true) as [? ?]
      by (split; [by apply lt_le | by apply le_refl]).
    by destruct x as [[]|[]| |[] mx ex], highest as [[]|[]| |[] mh eh].
  - assert (le highest highest = true ∧ le x highest = true) as [? ?]
      by (split; [by apply le_refl | by apply not_lt_le]).
    by destruct x as [[]|[]| |[] mx ex], highest as [[]|[]| |[] mh eh].
Qed.

Lemma max_step_not_NaN highest x :
  not_NaN highest → not_NaN x → not_NaN (max_step highest x).
Proof. intros. by destruct (max_step_cases highest x) as [->| ->]. Qed.

Lemma fold_max_le (l : list number) (highest : number) :
  Forall not_NaN l → not_NaN highest →
  not_NaN (fold_left max_step l highest)
  ∧ le highest (fold_left max_step l highest) = true
  ∧ ∀ v, In v l → le v (fold_left max_step l highest) = true.
Proof.
  intros Hl. revert highest.
  induction Hl as [|x l Hx _ IH]; intros highest Hhigh; simpl.
  - split; [done|]. split; [by apply le_refl | tauto].
  - destruct (max_step_le highest x Hhigh Hx) as [H1 H2].
    destruct (IH (max_step highest x)) as (Hn & Hle & Hall);
      [by apply max_step_not_NaN|].
    split; [done|]. split; [by eapply le_trans|].
    intros v [<-|Hv]; [by eapply le_trans | by apply Hall].
Qed.

Lemma fold_max_in (l : list number) (highest : number) :
  fold_left max_step l highest = highest
  ∨ In (fold_left max_step l highest) l.
Proof.
  revert highest. induction l as [|x l IH]; intros highest; simpl; [by left|].
  destruct (IH (max_step highest x)) as [->|Hin]; [|by right; right].
  destruct (max_step_cases highest x) as [->| ->]; [right; by left | by left].
Qed.

Lemma le_neg_Infinity_inv (v : number) :
  le v neg_Infinity = true → v = neg_Infinity.
Proof. by destruct v as [[]|[]| |[] m e]. Qed.

Lemma max_of_spec (values : list number) :
  Forall not_NaN values → values ≠ [] →
  In (max_of values) values
  ∧ ∀ v, In v values → le v (max_of values) = true.
Proof.
  intros Hn Hne. unfold max_of. rewrite existsb_isNaN by done.
  destruct (fold_max_le values neg_Infinity Hn eq_refl) as (_ & _ & Hall).
  split; [|done].
  destruct (fold_max_in values neg_Infinity) as [Heq|Hin]; [|done].
  destruct values as [|v values]; [done|].
  rewrite Heq in *. rewrite (le_neg_Infinity_inv v); [by left|].
  apply Hall. by left.
Qed.

Lemma sort_insert_perm cmp x l : sort_insert cmp x l ≡ₚ x :: l.
Proof.
  induction l as [|y l IH]; simpl; [done|].
  destruct (compare_positive (cmp y x)); [done|].
  rewrite IH. apply Permutation_swap.
Qed.

Lemma sort_perm cmp l : Number.sort cmp l ≡ₚ l.
Proof.
  unfold Number.sort.
  assert (∀ acc,
            fold_left (λ acc x, sort_insert cmp x acc) l acc ≡ₚ acc ++ l)
    as H; [|by rewrite H].
  induction l as [|x l IH]; intros acc; simpl.
  - by rewrite app_nil_r.
  - rewrite IH, sort_insert_perm. simpl. apply Permutation_middle.
Qed.

Lemma min_of_not_NaN (values : list number) :
  Forall not_NaN values → isNaN (min_of values) = false.
Proof.
  intros HN. unfold min_of. rewrite existsb_isNaN by done.
  by destruct (fold_min_le values Infinity HN eq_refl) as (? & _).
Qed.

Lemma max_of_not_NaN (values : list number) :
  Forall not_NaN values → isNaN (max_of values) = false.
Proof.
  intros HN. unfold max_of. rewrite existsb_isNaN by done.
  by destruct (fold_max_le values neg_Infinity HN eq_refl) as (? & _).
Qed.

(** ** [calculateStatistics] *)

Lemma numeric_values_In data column v :
  In v (numeric_values data column) ↔
  ∃ row, In row data ∧ v = parseFloat (get row column) ∧ isNaN v = false.
Proof.
  unfold numeric_values. rewrite filter_In, in_map_iff, negb_true_iff.
  split.
  - intros [(row & <- & Hrow) HN]. eauto.
  - intros (row & Hrow & -> & HN). eauto.
Qed.

Lemma numeric_values_not_NaN data column :
  Forall not_NaN (numeric_values data column).
Proof.
  apply List.Forall_forall. intros v Hv.
  apply numeric_values_In in Hv. by destruct Hv as (_ & _ & _ & ?).
Qed.

Lemma numeric_values_nil data column :
  numeric_values data column = [] ↔
  ∀ row, In row data → isNaN (parseFloat (get row column)) = true.
Proof.
  split.
  - intros Hnil row Hrow.
    destruct (isNaN (parseFloat (get row column))) eqn:HN; [done|].
    assert (In (parseFloat (get row column)) (numeric_values data column))
      as Hin by (apply numeric_values_In; eauto).
    rewrite Hnil in Hin. destruct Hin.
  - intros Hall.
    destruct (numeric_values data column) as [|v l] eqn:Hv; [done|].
    assert (In v (numeric_values data column)) as Hin
      by (rewrite Hv; by left).
    apply numeric_values_In in Hin.
    destruct Hin as (row & Hrow & -> & HN).
    rewrite Hall in HN; done.
Qed.

Lemma length_zero_iff {A} (l : list A) : Nat.eqb (length l) 0 = true ↔ l = [].
Proof. destruct l; simpl; split; intros; done. Qed.

Lemma numeric_values_length (data : list Row) (column : string) :
  (length (numeric_values data column) ≤ length data)%nat.
Proof.
  unfold numeric_values.
  etransitivity; [apply filter_length_le|]. by rewrite length_map.
Qed.

Lemma numeric_values_repeat (row : Row) (column : string) (n : nat) :
  isNaN (parseFloat (get row column)) = false →
  numeric_values (repeat row n) column
  = repeat (parseFloat (get row column)) n.
Proof.
  intros HN. unfold numeric_values.
  induction n as [|n IH]; simpl; [done|]. by rewrite HN, IH.
Qed.

(** The outcomes of [calculateStatistics], by the number of parsed
    values. *)
Lemma calculateStatistics_cases (limit : nat) (data : list Row)
    (column : string) :
  calculateStatistics limit data column
  = if Nat.eqb (length (numeric_values data column)) 0 then Returns None
    else if Nat.leb (length (numeric_values data column)) limit
    then Returns (Some (summary_of column (numeric_values data column)))
    else Throws RangeError.
Proof.
  unfold calculateStatistics.
  destruct (Nat.eqb (length data) 0) eqn:Hd.
  { apply length_zero_iff in Hd. by subst data. }
  destruct (Nat.eqb (length (numeric_values data column)) 0); [done|].
  unfold Math_min, Math_max.
  by destruct (Nat.leb (length (numeric_values data column)) limit).
Qed.


Lemma calculateStatistics_Some (limit : nat) (data : list Row)
    (column : string) (s : StatisticsSummary.t) :
  calculateStatistics limit data column = Returns (Some s) →
  numeric_values data column ≠ []
  ∧ s = summary_of column (numeric_values data column).
Proof.
  rewrite calculateStatistics_cases.
  destruct (numeric_values data column) as [|v values]; [done|].
  cbn [length Nat.eqb].
  destruct (Nat.leb _ limit); [|done]. by intros [= <-].
Qed.

(** Claim C9: the code departs from it.  [Math.min(...values)] passes one
    argument per parsed value, and an engine refuses a call with too many
    arguments: when more values parse than the engine passes arguments,
    the code throws a RangeError, where the claim has it return a summary
    (so for two hundred thousand rows [{x: 1}] on an engine that passes
    fewer arguments than that).  Up to that number of parsed values the
    claim holds: the result is absent exactly when the dataset is empty or
    no value of the column parses, and is a summary in every other case,
    whose count is the (positive) number of parsed values. *)
Theorem calculateStatistics_throws_RangeError :
  (∀ limit data column,
     (limit < length (numeric_values data column))%nat →
     calculateStatistics limit data column = Throws RangeError)
  ∧ (∀ limit, (limit < 200 * 1000)%nat →
       calculateStatistics limit many_rows_data "x" = Throws RangeError)
  ∧ (∀ limit data column,
       (length (numeric_values data column) ≤ limit)%nat →
       (calculateStatistics limit data column = Returns None ↔
        data = [] ∨
        ∀ row, row ∈ data → isNaN (parseFloat (get row column)) = true)
       ∧ (calculateStatistics limit data column ≠ Returns None →
          ∃ s, calculateStatistics limit data column = Returns (Some s)
            ∧ StatisticsSummary.column s = column
            ∧ StatisticsSummary.count s
              = length (numeric_values data column)
            ∧ (0 < StatisticsSummary.count s)%nat)).
Proof.
  assert (∀ limit data column,
            (limit < length (numeric_values data column))%nat →
            calculateStatistics limit data column = Throws RangeError)
    as Hthrows.
  { intros limit data column Hlt. rewrite calculateStatistics_cases.
    destruct (Nat.eqb_spec (length (numeric_values data column)) 0); [lia|].
    by rewrite (proj2 (Nat.leb_gt _ _) Hlt). }
  split; [exact Hthrows|]. split.
  { intros limit Hlt. apply Hthrows. unfold many_rows_data.
    rewrite numeric_values_repeat by (vm_compute; reflexivity).
    by rewrite repeat_length. }
  intros limit data column Hle. rewrite calculateStatistics_cases.
  rewrite (proj2 (Nat.leb_le _ _) Hle).
  destruct (Nat.eqb (length (numeric_values data column)) 0) eqn:Hv.
  - apply length_zero_iff in Hv.
    pose proof (proj1 (numeric_values_nil data column) Hv) as Hall.
    split; [|done]. split; [|done]. intros _.
    destruct data as [|row data]; [by left|]. right. intros r Hr.
    apply Hall. by apply list_elem_of_In.
  - split.
    + split; [done|]. intros [->|Hall]; [done|].
      assert (numeric_values data column = []) as Hnil.
      { apply numeric_values_nil. intros row Hrow.
        apply Hall. by apply list_elem_of_In. }
      by rewrite Hnil in Hv.
    + intros _. eexists. split; [reflexivity|].
      cbn [summary_of StatisticsSummary.column StatisticsSummary.count].
      apply Nat.eqb_neq in Hv. split; [done|]. split; [done | lia].
Qed.




(** Rounding can also push the mean above max: [[{x: '1.006'}]] has mean
    1.01.  And before any rounding to two decimals the mean of three
    values 0.1 is 0.10000000000000002, above their max. *)
Example calculateStatistics_rounded_above_max :
  option_map StatisticsSummary.mean
    <$> calculateStatistics 1000 [cell "x" (VStr "1.006")] "x"
  = Returns (Some (of_decimal false 101 (-2)))
  ∧ le (of_decimal false 101 (-2)) (of_decimal false 1006 (-3)) = false.
Proof. repeat apply conj; vm_compute; reflexivity. Qed.

(** With an even number of values the median before rounding can exceed
    max as well, when the sum of the two middle values overflows. *)
Example median_of_two_large_values :
  let large := of_decimal false 17 307 in
  div (add large large) two = Infinity
  ∧ le Infinity large = false.
Proof. repeat apply conj; vm_compute; reflexivity. Qed.

Example mean_of_three_tenths :
  let tenth := of_decimal false 1 (-1) in
  div (fold_left (λ a b, add a b) [tenth; tenth; tenth] zero) (of_nat 3)
  = of_decimal false 10000000000000002 (-17)
  ∧ le (of_decimal false 10000000000000002 (-17)) tenth = false.
Proof. repeat apply conj; vm_compute; reflexivity. Qed.

(** ** [filterData] *)

Lemma strip_prefix_Some (p s rest : string) :
  Str.strip_prefix p s = Some rest ↔ s = p +:+ rest.
Proof.
  revert s. induction p as [|a p IH]; intros s; simpl.
  - split; [by intros [= ->] | by intros ->].
  - destruct s as [|b s]; [done|].
    destruct (Ascii.eqb_spec a b) as [->|Hne].
    + rewrite IH. split; [by intros -> | by intros [= ->]].
    + split; [done | intros [= ? ?]; done].
Qed.

Lemma starts_with_true (s p : string) :
  Str.starts_with s p = true ↔ ∃ post, s = p +:+ post.
Proof.
  unfold Str.starts_with.
  destruct (Str.strip_prefix p s) as [rest|] eqn:H.
  - apply strip_prefix_Some in H. split; eauto.
  - split; [done|]. intros [post Hpost].
    apply strip_prefix_Some in Hpost. congruence.
Qed.

Lemma includes_contains (s sub : string) :
  Str.includes s sub = true ↔ contains s sub.
Proof.
  unfold contains. induction s as [|c s IH].
  - simpl. destruct (Str.starts_with "" sub) eqn:Hs.
    + apply starts_with_true in Hs. destruct Hs as [post Hpost].
      split; [|done]. intros _. by exists ""%string, post.
    + split; [done|]. intros (pre & post & Heq).
      destruct pre; [|done]. simpl in Heq.
      assert (Str.starts_with "" sub = true)
        by (apply starts_with_true; eauto).
      congruence.
  - cbn [Str.includes]. destruct (Str.starts_with (String c s) sub) eqn:Hs.
    + apply starts_with_true in Hs. destruct Hs as [post Hpost].
      split; [|done]. intros _. by exists ""%string, post.
    + rewrite IH. split.
      * intros (pre & post & ->). by exists (String c pre), post.
      * intros (pre & post & Heq). destruct pre as [|c' pre].
        -- simpl in Heq.
           assert (Str.starts_with (String c s) sub = true)
             by (apply starts_with_true; eauto).
           congruence.
        -- simpl in Heq. injection Heq as _ ->. eauto.
Qed.

Lemma SFcompare_Some_not_NaN (a b : number) (c : comparison) :
  SFcompare a b = Some c → isNaN a = false ∧ isNaN b = false.
Proof. by destruct a as [[]|[]| |[] ma ea], b as [[]|[]| |[] mb eb]. Qed.

Lemma SFcompare_swap (a b : number) :
  SFcompare b a = Some Lt ↔ SFcompare a b = Some Gt.
Proof.
  destruct a as [[]|[]| |[] ma ea], b as [[]|[]| |[] mb eb];
    try done; unfold SFcompare;
    change (Pos.compare_cont Eq ?a ?b) with (a ?= b)%positive;
    rewrite (Z.compare_antisym ea eb), (Pos.compare_antisym ma mb);
    destruct (ea ?= eb); simpl; try done;
    destruct (ma ?= mb)%positive; simpl; done.
Qed.

Lemma gt_true (a b : number) :
  gt a b = true ↔
  isNaN a = false ∧ isNaN b = false ∧ SFcompare a b = Some Gt.
Proof.
  unfold gt, SFltb. rewrite <- SFcompare_swap. split.
  - destruct (SFcompare b a) as [[]|] eqn:H; try done. intros _.
    destruct (SFcompare_Some_not_NaN _ _ _ H). done.
  - by intros (_ & _ & ->).
Qed.

Lemma lt_true (a b : number) :
  lt a b = true ↔
  isNaN a = false ∧ isNaN b = false ∧ SFcompare a b = Some Lt.
Proof.
  unfold lt, SFltb. split.
  - destruct (SFcompare a b) as [[]|] eqn:H; try done. intros _.
    destruct (SFcompare_Some_not_NaN _ _ _ H). done.
  - by intros (_ & _ & ->).
Qed.

Lemma unknown_operator (op : string) :
  op ∉ ["equals"; "contains"; "greater"; "less"]%string ↔
  op ≠ "equals"%string ∧ op ≠ "contains"%string
  ∧ op ≠ "greater"%string ∧ op ≠ "less"%string.
Proof.
  rewrite !not_elem_of_cons. pose proof (not_elem_of_nil op). tauto.
Qed.

Lemma filter_accepts_holds (row : Row) (f : Filter.t) :
  filter_accepts row f = true ↔ filter_holds row f.
Proof.
  split.
  - unfold filter_accepts. intros H.
    destruct (String.eqb_spec (Filter.operator f) "equals") as [Hop|Hne1].
    { apply holds_equals; [done|]. by apply String.eqb_eq. }
    destruct (String.eqb_spec (Filter.operator f) "contains") as [Hop|Hne2].
    { apply holds_contains; [done|]. by apply includes_contains. }
    destruct (String.eqb_spec (Filter.operator f) "greater") as [Hop|Hne3].
    { apply gt_true in H. destruct H as (? & ? & ?).
      by apply holds_greater. }
    destruct (String.eqb_spec (Filter.operator f) "less") as [Hop|Hne4].
    { apply lt_true in H. destruct H as (? & ? & ?).
      by apply holds_less. }
    apply holds_unknown. by apply unknown_operator.
  - unfold filter_accepts.
    intros [Hop H|Hop H|Hop Hv Hw H|Hop Hv Hw H|Hop].
    + rewrite Hop. simpl. by apply String.eqb_eq.
    + rewrite Hop. simpl. by apply includes_contains.
    + rewrite Hop. simpl. by apply gt_true.
    + rewrite Hop. simpl. by apply lt_true.
    + apply unknown_operator in Hop. destruct Hop as (H1 & H2 & H3 & H4).
      apply String.eqb_neq in H1, H2, H3, H4.
      by rewrite H1, H2, H3, H4.
Qed.

Lemma forallb_filter_accepts (row : Row) (filters : list Filter.t) :
  forallb (filter_accepts row) filters = true ↔
  Forall (filter_holds row) filters.
Proof.
  rewrite forallb_forall, List.Forall_forall.
  split; intros H f Hf; apply filter_accepts_holds; auto.
Qed.

(** Claim C5.  [filterData] filters the dataset by a test that holds of a
    row exactly when every filter of the list holds of it, where
    [filter_holds] reads: 'equals' is equality of the string
    representations, 'contains' is containment of the lower-cased
    representations, 'greater' and 'less' need both sides to parse and
    compare the parsed Numbers, and any other operator holds of every row.
    In particular the rows [{x: '5'}] and [{x: 5}] both pass the filter
    [x equals 5]. *)
Theorem filterData_keeps_exactly (data : list Row) (filters : list Filter.t) :
  (∃ keep : Row → bool,
      (∀ row, keep row = true ↔ Forall (filter_holds row) filters)
      ∧ filterData data filters = List.filter keep data)
  ∧ (∀ row, row ∈ filterData data filters ↔
       row ∈ data ∧ Forall (filter_holds row) filters)
  ∧ filterData equals_data [equals_filter] = equals_data.
Proof.
  split; [|split].
  - exists (λ row, forallb (filter_accepts row) filters).
    split; [|done]. intros row. apply forallb_filter_accepts.
  - intros row. unfold filterData.
    rewrite !list_elem_of_In, filter_In, forallb_filter_accepts. done.
  - vm_compute. reflexivity.
Qed.

(** Claim C10.  The result of [filterData] is a subsequence of the dataset
    (rows of the input, in their order, none repeated), and an empty list
    of filters keeps every row. *)
Theorem filterData_subsequence (data : list Row) (filters : list Filter.t) :
  filterData data filters `sublist_of` data
  ∧ filterData data [] = data.
Proof.
  unfold filterData. split.
  - induction data as [|row data IH]; simpl; [constructor|].
    destruct (forallb (filter_accepts row) filters); by constructor.
  - simpl. induction data as [|row data IH]; simpl; [done|]. by rewrite IH.
Qed.

(** ** Objects and maps built by the code *)

Lemma fold_insert_lookup {V} (f : string → V) (cols : list string)
    (m0 : gmap string V) (col : string) :
  fold_left (λ m c, <[c := f c]> m) cols m0 !! col =
  if decide (col ∈ cols) then Some (f col) else m0 !! col.
Proof.
  revert m0. induction cols as [|c cols IH]; intros m0; cbn [fold_left].
  - rewrite decide_False; [done|]. apply not_elem_of_nil.
  - rewrite IH. destruct (decide (col ∈ cols)) as [Hin|Hnin].
    + rewrite decide_True; [done|]. apply elem_of_cons; by right.
    + destruct (decide (c = col)) as [->|Hne].
      * rewrite lookup_insert_eq, decide_True; [done|].
        apply elem_of_cons; by left.
      * rewrite lookup_insert_ne by done.
        rewrite decide_False; [done|].
        rewrite elem_of_cons. intros [?|?]; done.
Qed.

Section ObjectEntries.

Context {A : Type}.
Implicit Types (o : Obj A) (e : string * A).

Lemma insert_by_index_In (i : Z) e (l : list (Z * (string * A)))
    (x : Z * (string * A)) :
  In x (insert_by_index i e l) ↔ x = (i, e) ∨ In x l.
Proof.
  induction l as [|[j e'] l IH]; simpl.
  - split; intros [?|?]; auto.
  - destruct (i <? j); simpl; [split; intros [?|?]; auto|].
    rewrite IH. tauto.
Qed.

Lemma index_entries_In o e :
  In e (map snd (index_entries o)) ↔
  In e o ∧ is_Some (array_index (fst e)).
Proof.
  induction o as [|[k a] o IH]; simpl.
  - tauto.
  - destruct (array_index k) as [i|] eqn:Hk.
    + rewrite in_map_iff. split.
      * intros ([j e'] & <- & Hin). apply insert_by_index_In in Hin.
        destruct Hin as [[= -> ->]|Hin].
        -- simpl. rewrite Hk. split; [by left | by eexists].
        -- assert (In e' (map snd (index_entries o))) as H
             by (apply in_map_iff; by exists (j, e')).
           apply IH in H. tauto.
      * intros [[<-|Hin] HS].
        -- exists (i, (k, a)). split; [done|].
           apply insert_by_index_In. by left.
        -- assert (In e (map snd (index_entries o))) as H
             by (apply IH; tauto).
           apply in_map_iff in H. destruct H as (x & <- & Hx).
           exists x. split; [done|]. apply insert_by_index_In. by right.
    + rewrite IH. split; [tauto|].
      intros [[<-|Hin] HS]; [|tauto].
      simpl in HS. rewrite Hk in HS. by destruct HS.
Qed.

Lemma named_entries_In o e :
  In e (named_entries o) ↔ In e o ∧ array_index (fst e) = None.
Proof.
  induction o as [|[k a] o IH]; simpl.
  - tauto.
  - destruct (array_index k) as [i|] eqn:Hk; simpl; rewrite IH.
    + split; [tauto|]. intros [[<-|Hin] HN]; [|tauto].
      simpl in HN. congruence.
    + split; [|tauto]. intros [<-|[? ?]]; simpl; auto.
Qed.

Lemma Object_entries_In o e : In e (Object_entries o) ↔ In e o.
Proof.
  unfold Object_entries.
  rewrite in_app_iff, index_entries_In, named_entries_In.
  destruct (array_index (fst e)) as [i|].
  - split; [tauto|]. intros H. left. split; [done | by eexists].
  - split; [tauto|]. intros H. by right.
Qed.

End ObjectEntries.

Section Objects.

Context {A : Type}.
Implicit Types (o : Obj A) (k : string).

Lemma obj_get_update o k k' (f : A → A) :
  obj_get (obj_update o k f) k' =
  if String.eqb k k' then f <$> obj_get o k else obj_get o k'.
Proof.
  induction o as [|[j a] o IH]; simpl.
  - by destruct (String.eqb k k').
  - destruct (String.eqb_spec j k) as [->|Hjk]; simpl.
    + by destruct (String.eqb k k').
    + rewrite IH.
      destruct (String.eqb_spec j k') as [->|Hjk'].
      * destruct (String.eqb_spec k k'); [congruence | done].
      * done.
Qed.

Lemma obj_get_add o k k' (a : A) :
  obj_get (obj_add o k a) k' =
  match obj_get o k' with
  | Some x => Some x
  | None => if String.eqb k k' then Some a else None
  end.
Proof.
  unfold obj_add. induction o as [|[j b] o IH]; simpl; [done|].
  by destruct (String.eqb j k').
Qed.

End Objects.

(** ** [countMissingValues] *)

(** On a row that lacks the column, a plain name reads as [undefined]. *)
Lemma get_plain (row : Row) (column : string) :
  plain column → get row column = default VUndefined (row !! column).
Proof. unfold plain, get. intros ->. by destruct (row !! column). Qed.

Lemma is_missing_iff (row : Row) (col : string) :
  plain col → (is_missing row col = true ↔ missing col row).
Proof.
  intros Hplain. unfold is_missing, missing. rewrite get_plain by done.
  destruct (row !! col) as [[| |b|x|s|text]|]; simpl; try done.
  destruct (String.eqb_spec s ""), (String.eqb_spec s "N/A");
    simpl; split; try done; auto; intros [?|?]; done.
Qed.


Lemma countMissingValues_lookup (data : list Row) (columns : list string)
    (col : string) :
  col ∈ columns →
  countMissingValues data columns !! col =
  Some {| MissingReport.count :=
            length (List.filter (λ row, is_missing row col) data);
          MissingReport.percentage :=
            round_to_2_decimals
              (mul (div (of_nat (length (List.filter
                                           (λ row, is_missing row col) data)))
                        (of_nat (length data)))
                   hundred) |}.
Proof.
  intros Hin. unfold countMissingValues.
  rewrite (fold_insert_lookup
             (λ col,
                {| MissingReport.count :=
                     length (List.filter (λ row, is_missing row col) data);
                   MissingReport.percentage := _ |})).
  by rewrite decide_True.
Qed.




(** ** [detectColumnTypes] *)

Section ColumnTypesFacts.

Variable Date_parse : string → number.

Lemma detectColumnTypes_lookup (data : list Row) (columns : list string)
    (col : string) :
  col ∈ columns →
  detectColumnTypes Date_parse data columns !! col =
  Some (column_type Date_parse data col).
Proof.
  intros Hin. unfold detectColumnTypes.
  rewrite (fold_insert_lookup (λ col, column_type Date_parse data col)).
  by rewrite decide_True.
Qed.

Lemma sample_of_firstn (data : list Row) (col : string) :
  sample_of (firstn 100 data) col = sample_of data col.
Proof. unfold sample_of. by rewrite firstn_firstn. Qed.

Lemma sample_of_nil (data : list Row) (col : string) :
  Forall (λ row, non_empty (get row col) = false) (firstn 100 data) →
  sample_of data col = [].
Proof.
  unfold sample_of. induction 1 as [|row rows Hrow _ IH]; simpl; [done|].
  unfold non_empty in Hrow. by rewrite Hrow.
Qed.

End ColumnTypesFacts.

(** Claim C8.  On a non-empty sample the checks apply in the order number,
    date, boolean, string: an all-numeric sample is tagged "number" whatever
    the other checks say, and each later tag needs the earlier checks to
    fail.  The sample ['1','0','1'] passes the boolean check as well and is
    tagged "number". *)
Theorem detectColumnTypes_precedence :
  (∀ (Date_parse : string → number) (data : list Row)
     (columns : list string) (col : string),
     col ∈ columns → sample_of data col ≠ [] →
     let sample := sample_of data col in
     let tag := detectColumnTypes Date_parse data columns !! col in
     (isNumeric sample = true → tag = Some "number"%string)
     ∧ (isNumeric sample = false → isDate Date_parse sample = true →
        tag = Some "date"%string)
     ∧ (isNumeric sample = false → isDate Date_parse sample = false →
        isBoolean sample = true → tag = Some "boolean"%string)
     ∧ (isNumeric sample = false → isDate Date_parse sample = false →
        isBoolean sample = false → tag = Some "string"%string))
  ∧ (∀ Date_parse : string → number,
       sample_of zero_one_data "c" = [VStr "1"; VStr "0"; VStr "1"]
       ∧ isBoolean [VStr "1"; VStr "0"; VStr "1"] = true
       ∧ detectColumnTypes Date_parse zero_one_data ["c"%string]
           !! "c"%string = Some "number"%string).
Proof.
  split.
  - intros Date_parse data columns col Hin Hne sample tag.
    subst tag. rewrite detectColumnTypes_lookup by done.
    unfold column_type, type_of_sample. fold sample.
    destruct sample as [|v sample'] eqn:Hs; [done|].
    cbn [length Nat.eqb].
    repeat split.
    + by intros ->.
    + by intros -> ->.
    + by intros -> -> ->.
    + by intros -> -> ->.
  - intros Date_parse. repeat split.
Qed.

(** The sample of the claim, as an instance of the general part. *)
Lemma detectColumnTypes_precedence_witness :
  let sample := sample_of zero_one_data "c" in
  let tag :=
    detectColumnTypes (λ _, NaN) zero_one_data ["c"%string] !! "c"%string in
  (isNumeric sample = true → tag = Some "number"%string)
  ∧ (isNumeric sample = false → isDate (λ _, NaN) sample = true →
     tag = Some "date"%string)
  ∧ (isNumeric sample = false → isDate (λ _, NaN) sample = false →
     isBoolean sample = true → tag = Some "boolean"%string)
  ∧ (isNumeric sample = false → isDate (λ _, NaN) sample = false →
     isBoolean sample = false → tag = Some "string"%string).
Proof.
  apply (proj1 detectColumnTypes_precedence (λ _, NaN) zero_one_data
           ["c"%string] "c"%string).
  - apply elem_of_cons; by left.
  - discriminate.
Defined.

(** Claim C3, as amended.  The tag of a requested column is the type of
    the non-empty values among the first 100 rows: it is unchanged when the
    dataset is cut to its first 100 rows, equal for datasets that agree on
    their first 100 rows, and "unknown" when none of the first 100 rows has
    a non-empty value, whatever the later rows hold. *)
Theorem detectColumnTypes_first_100_rows (Date_parse : string → number)
    (data : list Row) (columns : list string) (col : string) :
  col ∈ columns →
  detectColumnTypes Date_parse data columns !! col =
    Some (type_of_sample Date_parse
            (List.filter non_empty
               (map (λ row, get row col) (firstn 100 data))))
  ∧ detectColumnTypes Date_parse data columns !! col =
      detectColumnTypes Date_parse (firstn 100 data) columns !! col
  ∧ (∀ data' : list Row,
       firstn 100 data' = firstn 100 data →
       detectColumnTypes Date_parse data' columns !! col =
       detectColumnTypes Date_parse data columns !! col)
  ∧ (Forall (λ row, non_empty (get row col) = false) (firstn 100 data) →
     detectColumnTypes Date_parse data columns !! col =
     Some "unknown"%string).
Proof.
  intros Hin. rewrite !detectColumnTypes_lookup by done.
  unfold column_type. repeat split.
  - by rewrite sample_of_firstn.
  - intros data' Heq. rewrite detectColumnTypes_lookup by done.
    unfold column_type, sample_of. by rewrite Heq.
  - intros Hall. by rewrite sample_of_nil.
Qed.

(** One hundred empty rows and one late value, for the theorem above. *)
Lemma detectColumnTypes_first_100_rows_witness :
  detectColumnTypes (λ _, NaN) late_value_data ["c"%string] !! "c"%string =
    Some (type_of_sample (λ _, NaN)
            (List.filter non_empty
               (map (λ row, get row "c") (firstn 100 late_value_data))))
  ∧ detectColumnTypes (λ _, NaN) late_value_data ["c"%string] !! "c"%string =
      detectColumnTypes (λ _, NaN) (firstn 100 late_value_data)
        ["c"%string] !! "c"%string
  ∧ (∀ data' : list Row,
       firstn 100 data' = firstn 100 late_value_data →
       detectColumnTypes (λ _, NaN) data' ["c"%string] !! "c"%string =
       detectColumnTypes (λ _, NaN) late_value_data ["c"%string]
         !! "c"%string)
  ∧ (Forall (λ row, non_empty (get row "c") = false)
       (firstn 100 late_value_data) →
     detectColumnTypes (λ _, NaN) late_value_data ["c"%string] !! "c"%string =
     Some "unknown"%string).
Proof.
  apply (detectColumnTypes_first_100_rows (λ _, NaN) late_value_data
           ["c"%string] "c"%string).
  apply elem_of_cons; by left.
Defined.

(** Claim C3 as stated fails: after one hundred rows [{c: null}] the row
    [{c: '5'}] holds the first non-empty value of the column, which would
    classify as "number"; the code reports "unknown". *)
Lemma detectColumnTypes_late_value_unknown :
  sample_of_whole late_value_data "c" = [VStr "5"]
  ∧ (∀ Date_parse : string → number,
       type_of_sample Date_parse [VStr "5"] = "number"%string)
  ∧ (∀ Date_parse : string → number,
       detectColumnTypes Date_parse late_value_data ["c"%string]
         !! "c"%string = Some "unknown"%string).
Proof.
  split; [vm_compute; reflexivity|]. split.
  - intros Date_parse. vm_compute. reflexivity.
  - intros Date_parse. vm_compute. reflexivity.
Qed.

(** ** [findAnomalies] *)

Lemma imap_filter_values (column : string) (data : list Row) (n : nat) :
  map Item.value
    (List.filter (λ item, negb (isNaN (Item.value item)))
       (imap (λ idx row,
                {| Item.value := parseFloat (get row column);
                   Item.index := n + idx |}) data))
  = numeric_values data column.
Proof.
  unfold numeric_values. revert n.
  induction data as [|row data IH]; intros n; simpl; [done|].
  destruct (isNaN (parseFloat (get row column))); simpl.
  - rewrite <- (IH (S n)). do 2 f_equal. apply imap_ext.
    intros i x _. simpl. f_equal. lia.
  - f_equal. rewrite <- (IH (S n)). do 2 f_equal. apply imap_ext.
    intros i x _. simpl. f_equal. lia.
Qed.

(** Property X2.  Fewer than three numeric values: no anomalies. *)
Theorem findAnomalies_few_values (data : list Row) (column : string) :
  (length (numeric_values data column) < 3)%nat →
  findAnomalies data column = [].
Proof.
  intros Hlen. unfold findAnomalies.
  destruct (Nat.eqb (length data) 0); [done|].
  rewrite <- (imap_filter_values column data 0), length_map in Hlen.
  apply Nat.ltb_lt in Hlen. simpl in Hlen. by rewrite Hlen.
Qed.

(** A single numeric value, for the theorem above. *)
Lemma findAnomalies_few_values_witness :
  findAnomalies small_value_data "x" = [].
Proof.
  apply (findAnomalies_few_values small_value_data "x").
  vm_compute. lia.
Defined.

Lemma filter_nothing {A} (f : A → bool) (l : list A) :
  (∀ x, In x l → f x = false) → List.filter f l = [].
Proof.
  induction l as [|x l IH]; intros H; simpl; [done|].
  rewrite (H x) by (by left). apply IH. intros y Hy. apply H. by right.
Qed.

(** Property X3.  When every parsed value equals the mean as computed (as
    it does for equal values whose sum is exact), no row is flagged and no
    deviation is computed. *)
Theorem findAnomalies_exact_mean (data : list Row) (column : string) :
  let numbers := numeric_values data column in
  let mean :=
    div (fold_left (λ a b, add a b) numbers zero)
        (of_nat (length numbers)) in
  (∀ x, x ∈ numbers → SFcompare x mean = Some Eq) →
  findAnomalies data column = [].
Proof.
  intros numbers mean Hall. unfold findAnomalies.
  destruct (Nat.eqb (length data) 0); [done|].
  set (values := List.filter _ (imap _ data)).
  destruct (Nat.ltb (length values) 3); [done|].
  assert (map Item.value values = numbers) as ->
    by apply (imap_filter_values column data 0).
  fold mean.
  rewrite filter_nothing; [done|].
  intros item Hitem.
  apply not_above_threshold.
  - apply sub_of_equal, Hall. subst numbers.
    rewrite <- (imap_filter_values column data 0).
    apply list_elem_of_In, in_map, Hitem.
  - apply threshold_signless, Math_sqrt_signless.
Qed.

(** Three equal values 2 and an unparseable one, for the theorem above. *)
Lemma findAnomalies_exact_mean_witness :
  findAnomalies same_int_data "x" = [].
Proof.
  apply (findAnomalies_exact_mean same_int_data "x").
  intros x Hx. apply list_elem_of_In in Hx. vm_compute in Hx.
  destruct Hx as [<-|[<-|[<-|[]]]]; vm_compute; reflexivity.
Defined.

(** Claim C6: the code departs from it.  Three rows hold the same value
    1.1e-299.  The mean computed in binary64 is one unit in the last place
    above that value, the squared deviations underflow to 0, so the
    standard deviation and the threshold are 0, every row is flagged, and
    the deviation is a division by the zero standard deviation. *)
Theorem findAnomalies_flags_identical_values :
  let v := of_decimal false 11 (-300) in
  let mean := of_decimal false 11000000000000001 (-315) in
  numeric_values tiny_identical_data "x" = [v; v; v]
  ∧ div (fold_left (λ a b, add a b) [v; v; v] zero) (of_nat 3) = mean
  ∧ lt v mean = true
  ∧ Math_pow_2 (sub v mean) = zero
  ∧ findAnomalies tiny_identical_data "x" =
    [ {| Anomaly.index := 0; Anomaly.value := v;
         Anomaly.deviation := neg_Infinity |};
      {| Anomaly.index := 1; Anomaly.value := v;
         Anomaly.deviation := neg_Infinity |};
      {| Anomaly.index := 2; Anomaly.value := v;
         Anomaly.deviation := neg_Infinity |} ].
Proof. repeat apply conj; vm_compute; reflexivity. Qed.

(** ** Numbers written as strings and read back *)

Lemma read_digits_length (s : string) (acc len : Z) :
  len ≤ (Str.read_digits s acc len).1.2.
Proof.
  revert acc len. induction s as [|c s IH]; intros acc len; simpl; [lia|].
  destruct (Str.digit_of c); simpl; [|lia].
  specialize (IH (10 * acc + z) (len + 1)). lia.
Qed.

Lemma digit_not_whitespace (c : ascii) :
  is_Some (Str.digit_of c) → Str.is_whitespace c = false.
Proof.
  destruct c as [[] [] [] [] [] [] [] []]; try reflexivity;
    intros [d Hd]; vm_compute in Hd; discriminate.
Qed.

Lemma digit_not_sign (c : ascii) :
  is_Some (Str.digit_of c) → c ≠ "+"%char ∧ c ≠ "-"%char.
Proof. intros [d Hd]. split; intros ->; vm_compute in Hd; discriminate. Qed.

Lemma read_unsigned_decimal_digit (s : string) :
  starts_with_digit s → is_Some (Str.read_unsigned_decimal s).
Proof.
  destruct s as [|c s]; [done|]. intros [d Hd].
  unfold Str.read_unsigned_decimal. cbn [Str.read_digits]. rewrite Hd.
  pose proof (read_digits_length s (10 * 0 + d) (0 + 1)) as Hlen.
  destruct (Str.read_digits s _ _) as [[i ilen] s1]. simpl in Hlen.
  assert ((ilen =? 0) = false) as -> by lia.
  assert (∀ s', is_Some (let '(e, s4) := Str.read_exponent s' in
                         Some (i, e, s4))) as Hplain.
  { intros s'. by destruct (Str.read_exponent s'). }
  destruct s1 as [|c1 s2]; [apply Hplain|].
  destruct c1 as [[] [] [] [] [] [] [] []]; try apply Hplain.
  destruct (Str.read_digits s2 i 0) as [[m flen] s3]. cbn [andb].
  by destruct (Str.read_exponent s3).
Qed.

Lemma read_unsigned_digit (sign : bool) (s : string) :
  starts_with_digit s →
  ∃ x rest, Str.read_unsigned sign s = Some (x, rest) ∧ isNaN x = false.
Proof.
  intros Hs. unfold Str.read_unsigned.
  destruct (Str.strip_prefix "Infinity" s) as [rest|]; [by eauto|].
  destruct (read_unsigned_decimal_digit s Hs) as [[[m e] rest] ->].
  eexists _, _. split; [done|]. apply of_decimal_not_NaN.
Qed.

Lemma parseFloat_digit (s : string) :
  starts_with_digit s → isNaN (Str.parseFloat s) = false.
Proof.
  intros Hs. unfold Str.parseFloat.
  destruct s as [|c s]; [done|]. cbn [Str.trim_start].
  rewrite (digit_not_whitespace c Hs).
  destruct (digit_not_sign c Hs) as [Hplus Hminus].
  destruct (read_unsigned_digit false (String c s) Hs) as (x & rest & Hx & Hn).
  assert (Str.read_str_decimal (String c s)
          = Str.read_unsigned false (String c s)) as ->.
  { unfold Str.read_str_decimal.
    destruct c as [[] [] [] [] [] [] [] []]; done. }
  by rewrite Hx.
Qed.

Lemma parseFloat_minus_digit (s : string) :
  starts_with_digit s → isNaN (Str.parseFloat (String "-" s)) = false.
Proof.
  intros Hs. unfold Str.parseFloat. cbn [Str.trim_start Str.is_whitespace].
  change (Str.read_str_decimal (String "-" s))
    with (Str.read_unsigned true s).
  destruct (read_unsigned_digit true s Hs) as (x & rest & -> & Hn). done.
Qed.

Lemma digit_of_digit_char (d : Z) :
  0 ≤ d < 10 → Str.digit_of (Str.digit_char d) = Some d.
Proof.
  intros Hd.
  assert (d = 0 ∨ d = 1 ∨ d = 2 ∨ d = 3 ∨ d = 4 ∨ d = 5 ∨ d = 6 ∨ d = 7
          ∨ d = 8 ∨ d = 9) as H by lia.
  repeat destruct H as [->|H]; try subst d; reflexivity.
Qed.

Lemma decimal_go_digit (fuel : nat) (n : Z) (acc : string) :
  (fuel = 0%nat → starts_with_digit acc) →
  starts_with_digit (Str.decimal_go fuel n acc).
Proof.
  revert n acc. induction fuel as [|fuel IH]; intros n acc Hacc; [by auto|].
  cbn [Str.decimal_go].
  assert (starts_with_digit (String (Str.digit_char (n mod 10)) acc)) as H.
  { eexists. apply digit_of_digit_char. apply Z.mod_pos_bound. lia. }
  destruct (n / 10 =? 0); [done|]. by apply IH.
Qed.

Lemma decimal_digit (n : Z) : starts_with_digit (Str.decimal n).
Proof. by apply decimal_go_digit. Qed.

Lemma append_digit (s t : string) :
  starts_with_digit s → starts_with_digit (String.append s t).
Proof. by destruct s. Qed.

Lemma take_str_digit (n : Z) (s : string) :
  0 < n → starts_with_digit s → starts_with_digit (Str.take_str n s).
Proof.
  intros Hn. destruct s as [|c s]; [done|]. unfold Str.take_str.
  destruct (Z.to_nat n) as [|k] eqn:Hk; [lia|]. done.
Qed.

Lemma format_digits_digit (digits : string) (k n : Z) :
  starts_with_digit digits → starts_with_digit (Str.format_digits digits k n).
Proof.
  intros Hd. unfold Str.format_digits.
  destruct (_ && _); [by apply append_digit|].
  destruct (0 <? n) eqn:Hn.
  - destruct (n <=? 21); cbn [andb].
    + apply append_digit, take_str_digit; [lia|done].
    + destruct (_ && _); [by eexists|].
      destruct (k =? 1); [by apply append_digit|].
      apply append_digit, take_str_digit; [lia|done].
  - cbn [andb]. destruct (_ && _); [by eexists|].
    destruct (k =? 1); [by apply append_digit|].
    apply append_digit, take_str_digit; [lia|done].
Qed.

Lemma of_positive_finite_digit (x : number) (m : positive) (e : Z) :
  starts_with_digit (Str.of_positive_finite x m e).
Proof.
  unfold Str.of_positive_finite.
  destruct (Str.shortest _ _ _ _ _ _) as [[s k] n'].
  apply format_digits_digit, decimal_digit.
Qed.

(** Converting a Number to a string and parsing it back gives NaN only for
    NaN. *)
Lemma parseFloat_of_number (x : number) :
  isNaN (Str.parseFloat (Str.of_number x)) = isNaN x.
Proof.
  destruct x as [s|[]| |[] m e]; try reflexivity.
  - apply parseFloat_minus_digit, of_positive_finite_digit.
  - apply parseFloat_digit, of_positive_finite_digit.
Qed.

(** ** [filterData]: composition and edge cases *)

Lemma filter_filter_andb {A} (f g : A → bool) (l : list A) :
  List.filter g (List.filter f l) = List.filter (λ x, f x && g x) l.
Proof.
  induction l as [|x l IH]; simpl; [done|].
  destruct (f x); simpl; [|done]. destruct (g x); by rewrite IH.
Qed.

Lemma filter_ext_eq {A} (f g : A → bool) (l : list A) :
  (∀ x, f x = g x) → List.filter f l = List.filter g l.
Proof. intros H. induction l as [|x l IH]; simpl; by rewrite ?H, ?IH. Qed.

Lemma filter_everything {A} (f : A → bool) (l : list A) :
  (∀ x, In x l → f x = true) → List.filter f l = l.
Proof.
  induction l as [|x l IH]; intros H; simpl; [done|].
  rewrite (H x) by (by left). f_equal. apply IH. intros y Hy. apply H.
  by right.
Qed.

Lemma filter_comm {A} (f g : A → bool) (l : list A) :
  List.filter f (List.filter g l) = List.filter g (List.filter f l).
Proof.
  rewrite !filter_filter_andb. apply filter_ext_eq. intros x.
  apply andb_comm.
Qed.

Lemma forallb_Permutation {A} (f : A → bool) (l1 l2 : list A) :
  l1 ≡ₚ l2 → forallb f l1 = forallb f l2.
Proof.
  induction 1 as [|x l1 l2 _ IH|x y l|l1 l2 l3 _ IH1 _ IH2]; simpl.
  - done.
  - by rewrite IH.
  - destruct (f x), (f y); done.
  - by rewrite IH1.
Qed.

(** Property X4.  Filtering in two passes is filtering once with both lists
    of conditions, and filtering a second time with the same conditions
    changes nothing. *)
Theorem filterData_compose (data : list Row) (filters1 filters2 : list Filter.t) :
  filterData (filterData data filters1) filters2
  = filterData data (filters1 ++ filters2)
  ∧ filterData (filterData data filters1) filters1
    = filterData data filters1.
Proof.
  unfold filterData. rewrite !filter_filter_andb. split.
  - apply filter_ext_eq. intros row. by rewrite forallb_app.
  - apply filter_ext_eq. intros row. by destruct (forallb _ filters1).
Qed.

(** Property X5.  The order in which the conditions are listed does not
    matter: two lists holding the same conditions keep the same rows. *)
Theorem filterData_filter_order (data : list Row)
    (filters1 filters2 : list Filter.t) :
  filters1 ≡ₚ filters2 →
  filterData data filters1 = filterData data filters2.
Proof.
  intros Hperm. unfold filterData. apply filter_ext_eq.
  intros row. by apply forallb_Permutation.
Qed.

(** The conditions [x equals 5] and [x less 10] in both orders, for the
    theorem above. *)
Lemma filterData_filter_order_witness :
  filterData equals_data [equals_filter; less_than_ten]
  = filterData equals_data [less_than_ten; equals_filter].
Proof.
  apply (filterData_filter_order equals_data).
  apply Permutation_swap.
Defined.

Lemma lt_gt_exclusive (a b : number) : lt a b && gt a b = false.
Proof.
  unfold lt, gt, SFltb.
  destruct (SFcompare a b) as [[]|] eqn:Hab; try done.
  apply SFcompare_swap in Hab. by rewrite Hab.
Qed.

Lemma filterData_single (data : list Row) (f : Filter.t) :
  filterData data [f] = List.filter (λ row, filter_accepts row f) data.
Proof.
  unfold filterData. apply filter_ext_eq. intros row. simpl.
  apply andb_true_r.
Qed.

Lemma filter_accepts_equals (row : Row) (column : string) (v : Value) :
  filter_accepts row {| Filter.column := column;
                        Filter.operator := "equals";
                        Filter.value := v |}
  = String.eqb (ToString (get row column)) (ToString v).
Proof. reflexivity. Qed.

Lemma filter_accepts_greater (row : Row) (column : string) (v : Value) :
  filter_accepts row {| Filter.column := column;
                        Filter.operator := "greater";
                        Filter.value := v |}
  = gt (parseFloat (get row column)) (parseFloat v).
Proof. reflexivity. Qed.

Lemma filter_accepts_less (row : Row) (column : string) (v : Value) :
  filter_accepts row {| Filter.column := column;
                        Filter.operator := "less";
                        Filter.value := v |}
  = lt (parseFloat (get row column)) (parseFloat v).
Proof. reflexivity. Qed.

Lemma compare_with_NaN (x : number) : gt NaN x = false ∧ lt NaN x = false.
Proof. by destruct x. Qed.

(** Property X6.  No row is both greater and less than the same value: the
    two conditions together keep nothing.  And a row whose value does not
    parse as a number passes neither of them. *)
Theorem filterData_greater_less_disjoint (data : list Row) (column : string)
    (v : Value) :
  filterData data
    [ {| Filter.column := column; Filter.operator := "greater";
         Filter.value := v |};
      {| Filter.column := column; Filter.operator := "less";
         Filter.value := v |} ] = []
  ∧ (∀ row, ¬ parses (get row column) →
       (row ∉ filterData data
                [ {| Filter.column := column; Filter.operator := "greater";
                     Filter.value := v |} ])
       ∧ (row ∉ filterData data
                  [ {| Filter.column := column; Filter.operator := "less";
                       Filter.value := v |} ])).
Proof.
  split.
  - unfold filterData. apply filter_nothing. intros row _.
    cbn [forallb]. rewrite filter_accepts_greater, filter_accepts_less.
    rewrite andb_true_r, andb_comm. apply lt_gt_exclusive.
  - intros row Hnp. unfold parses in Hnp.
    apply not_false_is_true in Hnp.
    assert (parseFloat (get row column) = NaN) as HNaN
      by (by destruct (parseFloat (get row column))).
    destruct (compare_with_NaN (parseFloat v)) as [Hgt Hlt].
    rewrite !filterData_single.
    split; intros Hin; apply list_elem_of_In, filter_In in Hin;
      destruct Hin as [_ Hacc].
    + rewrite filter_accepts_greater, HNaN in Hacc. congruence.
    + rewrite filter_accepts_less, HNaN in Hacc. congruence.
Qed.

Lemma parseFloat_inherited (name : string) (v : Value) :
  Object_prototype name = Some v → parseFloat v = NaN.
Proof.
  unfold Object_prototype.
  destruct (String.eqb name "constructor"); [by intros [= <-]|].
  destruct (existsb _ _); [by intros [= <-]|].
  destruct (String.eqb name "__proto__"); [by intros [= <-] | done].
Qed.

(** What reading a column gives on a row that lacks it. *)
Lemma get_absent (row : Row) (column : string) :
  row !! column = None →
  get row column = get ∅ column ∧ parseFloat (get row column) = NaN.
Proof.
  intros Hrow. unfold get. rewrite Hrow, lookup_empty. split; [done|].
  destruct (Object_prototype column) as [v|] eqn:Hv; [|done].
  by apply (parseFloat_inherited column).
Qed.

(** Property X7.  On rows that lack the column altogether, [equals] keeps
    every row when the filter value reads like what the absent column reads
    as, and none otherwise; [greater] and [less] keep none.  (The absent
    column reads as "undefined", unless its name is the name of a member of
    [Object.prototype]: then as the text of that member.) *)
Theorem filterData_absent_column (data : list Row) (column : string)
    (v : Value) :
  (∀ row, row ∈ data → row !! column = None) →
  filterData data
    [ {| Filter.column := column; Filter.operator := "equals";
         Filter.value := v |} ]
  = (if String.eqb (ToString v) (ToString (get ∅ column))
     then data else [])
  ∧ (plain column → ToString (get ∅ column) = "undefined"%string)
  ∧ filterData data
      [ {| Filter.column := column; Filter.operator := "greater";
           Filter.value := v |} ] = []
  ∧ filterData data
      [ {| Filter.column := column; Filter.operator := "less";
           Filter.value := v |} ] = [].
Proof.
  intros Habsent.
  assert (∀ row, In row data →
            get row column = get ∅ column
            ∧ parseFloat (get row column) = NaN) as Hget.
  { intros row Hrow. apply get_absent, Habsent. by apply list_elem_of_In. }
  destruct (compare_with_NaN (parseFloat v)) as [Hgt Hlt].
  rewrite !filterData_single. repeat apply conj.
  - destruct (String.eqb (ToString v) (ToString (get ∅ column))) eqn:Hv.
    + apply filter_everything. intros row Hrow.
      rewrite filter_accepts_equals, (proj1 (Hget row Hrow)).
      by rewrite String.eqb_sym.
    + apply filter_nothing. intros row Hrow.
      rewrite filter_accepts_equals, (proj1 (Hget row Hrow)).
      by rewrite String.eqb_sym.
  - intros Hplain. by rewrite get_plain.
  - apply filter_nothing. intros row Hrow.
    by rewrite filter_accepts_greater, (proj2 (Hget row Hrow)).
  - apply filter_nothing. intros row Hrow.
    by rewrite filter_accepts_less, (proj2 (Hget row Hrow)).
Qed.

(** Rows with a column [x] only, filtered on [constructor] against the
    string "undefined", for the theorem above: no row is kept. *)
Lemma filterData_absent_column_witness :
  filterData equals_data
    [ {| Filter.column := "constructor"; Filter.operator := "equals";
         Filter.value := VStr "undefined" |} ]
  = (if String.eqb (ToString (VStr "undefined"))
          (ToString (get ∅ "constructor"))
     then equals_data else [])
  ∧ (plain "constructor" →
     ToString (get ∅ "constructor") = "undefined"%string)
  ∧ filterData equals_data
      [ {| Filter.column := "constructor"; Filter.operator := "greater";
           Filter.value := VStr "undefined" |} ] = []
  ∧ filterData equals_data
      [ {| Filter.column := "constructor"; Filter.operator := "less";
           Filter.value := VStr "undefined" |} ] = [].
Proof.
  apply (filterData_absent_column equals_data "constructor"
           (VStr "undefined")).
  intros row Hrow. apply list_elem_of_In in Hrow.
  destruct Hrow as [<-|[<-|[]]]; vm_compute; reflexivity.
Defined.

Lemma lower_char_idempotent (c : ascii) :
  Str.lower_char (Str.lower_char c) = Str.lower_char c.
Proof. destruct c as [[] [] [] [] [] [] [] []]; reflexivity. Qed.

Lemma toLowerCase_idempotent (s : string) :
  Str.toLowerCase (Str.toLowerCase s) = Str.toLowerCase s.
Proof.
  induction s as [|c s IH]; simpl; [done|].
  by rewrite lower_char_idempotent, IH.
Qed.

Lemma includes_empty (s : string) : Str.includes s "" = true.
Proof. by destruct s. Qed.

(** Property X8.  [contains] ignores the case of the filter value: the
    value and its lower-case form keep the same rows.  And the empty
    filter value keeps every row. *)
Theorem filterData_contains_case (data : list Row) (column : string)
    (needle : string) :
  filterData data
    [ {| Filter.column := column; Filter.operator := "contains";
         Filter.value := VStr needle |} ]
  = filterData data
      [ {| Filter.column := column; Filter.operator := "contains";
           Filter.value := VStr (Str.toLowerCase needle) |} ]
  ∧ filterData data
      [ {| Filter.column := column; Filter.operator := "contains";
           Filter.value := VStr "" |} ] = data.
Proof.
  rewrite !filterData_single. split.
  - apply filter_ext_eq. intros row. unfold filter_accepts.
    cbn [Filter.operator Filter.value Filter.column ToString].
    by rewrite toLowerCase_idempotent.
  - apply filter_everything. intros row _. unfold filter_accepts.
    cbn [Filter.operator Filter.value Filter.column ToString].
    apply includes_empty.
Qed.

(** ** [calculateStatistics]: unparsed rows, NaN and Number cells *)

Lemma numeric_values_parsed (data : list Row) (column : string) :
  numeric_values
    (List.filter (λ row, negb (isNaN (parseFloat (get row column)))) data)
    column
  = numeric_values data column.
Proof.
  unfold numeric_values. induction data as [|row data IH]; simpl; [done|].
  destruct (isNaN (parseFloat (get row column))) eqn:HN; simpl;
    by rewrite ?HN, IH.
Qed.

(** Property X9.  Rows whose value does not parse as a number have no
    influence: the result is the result on the dataset without them. *)
Theorem calculateStatistics_ignores_unparsed (limit : nat)
    (data : list Row) (column : string) :
  calculateStatistics limit data column
  = calculateStatistics limit
      (List.filter (λ row, negb (isNaN (parseFloat (get row column)))) data)
      column.
Proof. by rewrite !calculateStatistics_cases, numeric_values_parsed. Qed.

(** Property X10.  In a summary, the minimum and the maximum are never
    NaN; and when every parsed value is finite, neither are the mean, the
    median and the sum.  (An array has fewer than 2^32 elements.) *)
Theorem calculateStatistics_never_NaN (limit : nat) (data : list Row)
    (column : string) (s : StatisticsSummary.t) :
  Z.of_nat (length data) < 2 ^ 32 →
  calculateStatistics limit data column = Returns (Some s) →
  isNaN (StatisticsSummary.min s) = false
  ∧ isNaN (StatisticsSummary.max s) = false
  ∧ ((∀ v, v ∈ numeric_values data column → is_finite v = true) →
     isNaN (StatisticsSummary.mean s) = false
     ∧ isNaN (StatisticsSummary.median s) = false
     ∧ isNaN (StatisticsSummary.sum s) = false).
Proof.
  intros Hlen Hs. apply calculateStatistics_Some in Hs as [Hne ->].
  pose proof (numeric_values_length data column) as Hle.
  pose proof (numeric_values_not_NaN data column) as HN.
  set (values := numeric_values data column) in *.
  assert (length values ≠ 0%nat) as Hpos by (by destruct values).
  cbn [summary_of StatisticsSummary.min StatisticsSummary.max
       StatisticsSummary.mean StatisticsSummary.median
       StatisticsSummary.sum].
  destruct (min_of_spec _ HN Hne) as [Hmin _].
  destruct (max_of_spec _ HN Hne) as [Hmax _].
  pose proof (proj1 (List.Forall_forall _ _) HN) as HN'.
  split; [by apply HN'|]. split; [by apply HN'|].
  intros Hfin.
  assert (isNaN (fold_left (λ a b, add a b) values zero) = false) as Hsum
    by (by apply fold_add_not_NaN).
  set (sorted := Number.sort (λ a b, sub a b) values).
  assert (sorted ≡ₚ values) as Hperm by apply sort_perm.
  assert (length sorted = length values) as Hslen by by rewrite Hperm.
  assert (∀ i, (i < length sorted)%nat →
               is_finite (nth i sorted NaN) = true) as Hnth.
  { intros i Hi. apply Hfin. rewrite <- Hperm.
    apply list_elem_of_In. by apply nth_In. }
  repeat apply conj.
  - apply (round_to_2_decimals_not_NaN
             (div (fold_left (λ a b, add a b) values zero)
                  (of_nat (length values)))).
    apply div_count_not_NaN; [lia| |done].
    apply Z.lt_trans with (2 ^ 32); [lia | done].
  - apply (round_to_2_decimals_not_NaN
             (if Nat.eqb (length sorted mod 2) 0
              then div (add (nth (length sorted / 2 - 1) sorted NaN)
                            (nth (length sorted / 2) sorted NaN)) two
              else nth (length sorted / 2) sorted NaN)).
    assert (length sorted / 2 < length sorted)%nat as Hhalf
      by (apply Nat.div_lt; lia).
    destruct (Nat.eqb (length sorted mod 2) 0).
    + rewrite two_finite. apply div_finite_not_NaN. apply add_not_NaN.
      * assert (is_finite (nth (length sorted / 2 - 1) sorted NaN) = true)
          as H by (apply Hnth; lia).
        by destruct (nth (length sorted / 2 - 1) sorted NaN).
      * by apply Hnth.
    + assert (is_finite (nth (length sorted / 2) sorted NaN) = true)
        as H by (by apply Hnth).
      by destruct (nth (length sorted / 2) sorted NaN).
  - by apply (round_to_2_decimals_not_NaN
                (fold_left (λ a b, add a b) values zero)).
Qed.

(** The values 3, 1 and 2, on an engine that passes 1000 arguments, for
    the theorem above. *)
Lemma calculateStatistics_never_NaN_witness :
  ∃ s, calculateStatistics 1000 three_value_data "x" = Returns (Some s)
    ∧ isNaN (StatisticsSummary.min s) = false
    ∧ isNaN (StatisticsSummary.max s) = false
    ∧ ((∀ v, v ∈ numeric_values three_value_data "x" →
          is_finite v = true) →
       isNaN (StatisticsSummary.mean s) = false
       ∧ isNaN (StatisticsSummary.median s) = false
       ∧ isNaN (StatisticsSummary.sum s) = false).
Proof.
  destruct (calculateStatistics 1000 three_value_data "x") as [[s|]|e]
    eqn:Hs; [|by vm_compute in Hs..].
  exists s. split; [done|].
  apply (calculateStatistics_never_NaN 1000 three_value_data "x" s);
    [reflexivity | exact Hs].
Defined.

(** Property X11.  Cells that hold Numbers are all counted: on a dataset,
    not empty and with no more rows than the engine passes arguments,
    whose column holds a Number other than NaN in every row, there is a
    summary and its count is the number of rows. *)
Theorem calculateStatistics_counts_Numbers (limit : nat) (data : list Row)
    (column : string) :
  data ≠ [] →
  (length data ≤ limit)%nat →
  (∀ row, row ∈ data →
     ∃ x, get row column = VNum x ∧ isNaN x = false) →
  ∃ summary,
    calculateStatistics limit data column = Returns (Some summary)
    ∧ StatisticsSummary.count summary = length data.
Proof.
  intros Hdata Hlimit Hrows.
  assert (numeric_values data column
          = map (λ row, parseFloat (get row column)) data) as Hall.
  { apply filter_everything. intros val Hval.
    apply in_map_iff in Hval as (row & <- & Hrow).
    apply (proj2 (list_elem_of_In _ _)) in Hrow.
    destruct (Hrows row Hrow) as (x & -> & Hx).
    unfold parseFloat. cbn [ToString]. by rewrite parseFloat_of_number, Hx. }
  assert (length (numeric_values data column) = length data) as Hlen
    by (by rewrite Hall, length_map).
  rewrite calculateStatistics_cases, Hlen.
  rewrite (proj2 (Nat.leb_le _ _) Hlimit).
  destruct data as [|row data]; [done|]. cbn [length Nat.eqb].
  eexists. split; [reflexivity|]. cbn [summary_of StatisticsSummary.count].
  done.
Qed.

(** The Numbers 1.5 and -2, on an engine that passes 1000 arguments, for
    the theorem above. *)
Lemma calculateStatistics_counts_Numbers_witness :
  ∃ summary,
    calculateStatistics 1000 number_cells_data "x" = Returns (Some summary)
    ∧ StatisticsSummary.count summary = length number_cells_data.
Proof.
  apply (calculateStatistics_counts_Numbers 1000 number_cells_data "x").
  - discriminate.
  - apply Nat.leb_le. vm_compute. reflexivity.
  - intros row Hrow. apply list_elem_of_In in Hrow.
    destruct Hrow as [<-|[<-|[]]].
    + exists (of_decimal false 15 (-1)). split; vm_compute; reflexivity.
    + exists (of_Z (-2)). split; vm_compute; reflexivity.
Defined.

(** ** [groupBy] *)

Lemma group_step_get (column : string) (groups : Obj (list Row))
    (row : Row) (key : string) :
  obj_get (group_step column groups row) key =
  if String.eqb (group_key row column) key
  then Some (default [] (obj_get groups key) ++ [row])
  else obj_get groups key.
Proof.
  unfold group_step. rewrite obj_get_update.
  destruct (String.eqb_spec (group_key row column) key) as [<-|Hne].
  - destruct (obj_get groups (group_key row column)) as [rows|] eqn:Hg.
    + by rewrite Hg.
    + by rewrite obj_get_add, Hg, String.eqb_refl.
  - destruct (obj_get groups (group_key row column)); [done|].
    rewrite obj_get_add.
    destruct (obj_get groups key); [done|].
    by apply String.eqb_neq in Hne as ->.
Qed.

Lemma fold_group_step_get (column : string) (data : list Row)
    (groups : Obj (list Row)) (key : string) :
  obj_get (fold_left (group_step column) data groups) key =
  match List.filter (λ row, String.eqb (group_key row column) key) data with
  | [] => obj_get groups key
  | rows => Some (default [] (obj_get groups key) ++ rows)
  end.
Proof.
  revert groups. induction data as [|row data IH]; intros groups; simpl.
  - done.
  - rewrite IH, group_step_get.
    destruct (String.eqb (group_key row column) key); simpl.
    + destruct (List.filter _ data) as [|r rows]; simpl; [done|].
      by rewrite <- app_assoc.
    + done.
Qed.

Section ObjectFacts.

Context {A : Type}.
Implicit Types (o : Obj A) (k : string).

Lemma obj_get_None o k : obj_get o k = None ↔ k ∉ map fst o.
Proof.
  induction o as [|[j a] o IH]; simpl.
  - split; [intros _; apply not_elem_of_nil | done].
  - rewrite not_elem_of_cons.
    destruct (String.eqb_spec j k) as [->|Hne].
    + split; [done | by intros [? _]].
    + rewrite IH. split; [by intros ?; split; [congruence|] | by intros [_ ?]].
Qed.

Lemma obj_get_Some_elem o k (a : A) : obj_get o k = Some a → (k, a) ∈ o.
Proof.
  induction o as [|[j b] o IH]; simpl; [done|].
  destruct (String.eqb_spec j k) as [->|Hne].
  - intros [= ->]. apply elem_of_cons. by left.
  - intros H. apply elem_of_cons. right. by apply IH.
Qed.

Lemma obj_get_elem o k (a : A) :
  NoDup (map fst o) → (k, a) ∈ o → obj_get o k = Some a.
Proof.
  induction o as [|[j b] o IH]; simpl; intros Hnd Hin.
  - by apply elem_of_nil in Hin.
  - apply NoDup_cons in Hnd as [Hj Hnd].
    apply elem_of_cons in Hin as [[= -> ->]|Hin].
    + by rewrite String.eqb_refl.
    + destruct (String.eqb_spec j k) as [->|Hne]; [|by apply IH].
      exfalso. apply Hj. apply list_elem_of_fmap. by exists (k, a).
Qed.

Lemma obj_update_keys o k (f : A → A) :
  map fst (obj_update o k f) = map fst o.
Proof.
  induction o as [|[j a] o IH]; simpl; [done|].
  destruct (String.eqb j k); simpl; by rewrite ?IH.
Qed.

Lemma obj_add_keys o k (a : A) : map fst (obj_add o k a) = map fst o ++ [k].
Proof. unfold obj_add. by rewrite map_app. Qed.

Lemma insert_by_index_perm (i : Z) (e : string * A)
    (l : list (Z * (string * A))) :
  insert_by_index i e l ≡ₚ (i, e) :: l.
Proof.
  induction l as [|[j e'] l IH]; simpl; [done|].
  destruct (i <? j); [done|]. rewrite IH. apply Permutation_swap.
Qed.

(** [Object.entries] lists every property once. *)
Lemma Object_entries_perm o : Object_entries o ≡ₚ o.
Proof.
  unfold Object_entries. induction o as [|[k a] o IH]; simpl; [done|].
  destruct (array_index k) as [i|].
  - rewrite insert_by_index_perm. simpl. by rewrite IH.
  - rewrite <- Permutation_middle. by rewrite IH.
Qed.

End ObjectFacts.

Section GroupByFacts.

Variable column : string.

Lemma obj_update_split {A} (o : Obj A) (k : string) (a : A) (f : A → A) :
  obj_get o k = Some a →
  ∃ o1 o2, o = o1 ++ (k, a) :: o2
    ∧ obj_update o k f = o1 ++ (k, f a) :: o2.
Proof.
  induction o as [|[j b] o IH]; simpl; [done|].
  destruct (String.eqb_spec j k) as [->|Hne].
  - intros [= ->]. by exists [], o.
  - intros H. destruct (IH H) as (o1 & o2 & -> & ->).
    by exists ((j, b) :: o1), o2.
Qed.

Lemma obj_update_new {A} (o : Obj A) (k : string) (a : A) (f : A → A) :
  obj_get o k = None →
  obj_update (obj_add o k a) k f = o ++ [(k, f a)].
Proof.
  unfold obj_add. induction o as [|[j b] o IH]; simpl.
  - by rewrite String.eqb_refl.
  - destruct (String.eqb j k); [done|]. intros H. by rewrite IH.
Qed.

Lemma group_step_invariant (groups : Obj (list Row)) (seen : list Row)
    (row : Row) :
  groups_invariant column groups seen →
  groups_invariant column (group_step column groups row) (seen ++ [row]).
Proof.
  intros (Hnd & Hgroups & Hperm). unfold group_step.
  set (key := group_key row column).
  destruct (obj_get groups key) as [rows0|] eqn:Hget.
  - destruct (obj_update_split groups key rows0 (λ rows, rows ++ [row]) Hget)
      as (o1 & o2 & Heq & ->).
    subst groups. repeat split.
    + by rewrite map_app in *.
    + apply elem_of_app in H as [H|H];
        [apply (Hgroups key0 rows); apply elem_of_app; by left|].
      apply elem_of_cons in H as [[= -> ->]|H];
        [by destruct rows0
        |apply (Hgroups key0 rows); apply elem_of_app; right;
         apply elem_of_cons; by right].
    + intros r Hr.
      apply elem_of_app in H as [H|H].
      { apply (Hgroups key0 rows); [apply elem_of_app; by left | done]. }
      apply elem_of_cons in H as [[= -> ->]|H].
      * apply elem_of_app in Hr as [Hr|Hr].
        -- apply (Hgroups key rows0); [|done].
           apply elem_of_app. right. apply elem_of_cons. by left.
        -- apply list_elem_of_singleton in Hr. by subst r.
      * apply (Hgroups key0 rows); [|done].
        apply elem_of_app. right. apply elem_of_cons. by right.
    + rewrite <- Hperm. rewrite !map_app, !concat_app.
      cbn [map concat snd]. rewrite <- !app_assoc.
      do 2 apply Permutation_app_head. apply Permutation_app_comm.
  - rewrite obj_update_new by done. simpl.
    pose proof (proj1 (obj_get_None groups key) Hget) as Hfresh.
    repeat split.
    + rewrite map_app. simpl. apply NoDup_app. repeat split; [done| |].
      * intros k Hk Hk'. apply list_elem_of_singleton in Hk'. by subst k.
      * apply NoDup_singleton.
    + apply elem_of_app in H as [H|H]; [by apply (Hgroups key0 rows)|].
      apply list_elem_of_singleton in H. by injection H as -> ->.
    + intros r Hr. apply elem_of_app in H as [H|H];
        [by apply (Hgroups key0 rows)|].
      apply list_elem_of_singleton in H. injection H as -> ->.
      apply list_elem_of_singleton in Hr. by subst r.
    + rewrite map_app, concat_app. simpl. by rewrite Hperm.
Qed.

Lemma fold_group_step_invariant (data : list Row)
    (groups : Obj (list Row)) (seen : list Row) :
  groups_invariant column groups seen →
  groups_invariant column (fold_left (group_step column) data groups)
    (seen ++ data).
Proof.
  revert groups seen. induction data as [|row data IH];
    intros groups seen Hinv; simpl.
  - by rewrite app_nil_r.
  - replace (seen ++ row :: data) with ((seen ++ [row]) ++ data)
      by (by rewrite <- app_assoc).
    by apply IH, group_step_invariant.
Qed.

End GroupByFacts.

(** No groups and no rows seen: where the loop starts. *)
Lemma groups_invariant_nil (column : string) :
  groups_invariant column [] [].
Proof.
  split; [apply NoDup_nil_2|].
  split; [|done]. intros key rows H. by apply elem_of_nil in H.
Qed.

Lemma plain_inherited (name : string) : plain name ↔ inherited name = false.
Proof. unfold plain, inherited. by destruct (Object_prototype name). Qed.

(** One round of the loop of [groupBy]: on a plain key it is [group_step],
    on the name of a member of [Object.prototype] a TypeError, as long as
    the groups have plain keys only. *)
Lemma groupBy_round (column : string) (groups : Obj (list Row)) (row : Row) :
  (∀ key, key ∈ map fst groups → plain key) →
  group_round column (Returns groups) row
  = if inherited (group_key row column) then Throws TypeError
    else Returns (group_step column groups row).
Proof.
  intros Hkeys. unfold group_round. cbn [mbind Result_bind].
  change (ToString (or_else (get row column) (VStr "null")))
    with (group_key row column).
  cbn zeta. unfold truthy_property, group_step.
  set (key := group_key row column).
  destruct (obj_get groups key) as [rows|] eqn:Hget.
  - rewrite Hget.
    assert (plain key) as Hplain.
    { apply Hkeys. apply obj_get_Some_elem in Hget.
      apply list_elem_of_fmap. by exists (key, rows). }
    by rewrite (proj1 (plain_inherited key) Hplain).
  - destruct (inherited key); [by rewrite Hget|].
    by rewrite obj_get_add, Hget, String.eqb_refl.
Qed.

Lemma group_step_keys (column : string) (groups : Obj (list Row))
    (row : Row) :
  (∀ key, key ∈ map fst groups → plain key) →
  plain (group_key row column) →
  ∀ key, key ∈ map fst (group_step column groups row) → plain key.
Proof.
  intros Hkeys Hplain key. unfold group_step.
  destruct (obj_get groups (group_key row column));
    rewrite obj_update_keys; [by apply Hkeys|].
  rewrite obj_add_keys, elem_of_app, list_elem_of_singleton.
  intros [Hkey| ->]; [by apply Hkeys | done].
Qed.

Lemma group_round_Throws (column : string) (data : list Row) (e : Thrown) :
  fold_left (group_round column) data (Throws e) = Throws e.
Proof. induction data as [|row data IH]; [done | apply IH]. Qed.

Lemma groupBy_fold (column : string) (data : list Row)
    (groups : Obj (list Row)) :
  (∀ key, key ∈ map fst groups → plain key) →
  fold_left (group_round column) data (Returns groups)
  = if forallb (λ row, negb (inherited (group_key row column))) data
    then Returns (fold_left (group_step column) data groups)
    else Throws TypeError.
Proof.
  revert groups. induction data as [|row data IH]; intros groups Hkeys;
    [done|].
  cbn [fold_left forallb]. rewrite groupBy_round by done.
  destruct (inherited (group_key row column)) eqn:Hinh; cbn [negb andb].
  - apply group_round_Throws.
  - apply IH. apply group_step_keys; [done|]. by apply plain_inherited.
Qed.

(** The outcomes of [groupBy]. *)
Lemma groupBy_cases (data : list Row) (column : string) :
  groupBy data column
  = if forallb (λ row, negb (inherited (group_key row column))) data
    then Returns (fold_left (group_step column) data [])
    else Throws TypeError.
Proof.
  change (groupBy data column)
    with (fold_left (group_round column) data (Returns [])).
  apply groupBy_fold. intros key Hkey. by apply elem_of_nil in Hkey.
Qed.

Lemma groupBy_plain (data : list Row) (column : string) :
  (∀ row, row ∈ data → plain (group_key row column)) →
  groupBy data column = Returns (fold_left (group_step column) data []).
Proof.
  intros Hplain. rewrite groupBy_cases.
  assert (forallb (λ row, negb (inherited (group_key row column))) data
          = true) as ->; [|done].
  apply forallb_forall. intros row Hrow. apply negb_true_iff.
  apply plain_inherited, Hplain. by apply list_elem_of_In.
Qed.

(** Property X1.  [groupBy] as a map, when no row's key is the name of a
    member of [Object.prototype]: the group of a key holds, in dataset
    order, the rows whose key it is, and keys of no row have no group. *)
Theorem groupBy_groups (data : list Row) (column : string) :
  (∀ row, row ∈ data → plain (group_key row column)) →
  ∃ groups,
    groupBy data column = Returns groups
    ∧ ∀ key,
        obj_get groups key =
        match
          List.filter (λ row, String.eqb (group_key row column) key) data
        with
        | [] => None
        | rows => Some rows
        end.
Proof.
  intros Hplain. eexists. split; [by apply groupBy_plain|].
  intros key. rewrite fold_group_step_get. by destruct (List.filter _ data).
Qed.

(** The rows [{g: 'a'}, {g: 'a'}, {g: 'b'}], for the theorem above. *)
Lemma groupBy_groups_witness :
  ∃ groups,
    groupBy sales_data "g" = Returns groups
    ∧ ∀ key,
        obj_get groups key =
        match
          List.filter (λ row, String.eqb (group_key row "g") key) sales_data
        with
        | [] => None
        | rows => Some rows
        end.
Proof. apply (groupBy_groups sales_data "g"). plain_rows. Defined.

(** Property X25.  [groupBy] throws a TypeError exactly when the key of
    some row is the name of a member of [Object.prototype] (for such a key
    [groups[key]] is that member, and has no [push]); it throws nothing
    else.  So for [[{g: 'a'}, {g: 'constructor'}]]. *)
Theorem groupBy_throws_TypeError :
  (∀ data column,
     (groupBy data column = Throws TypeError ↔
      ∃ row, row ∈ data ∧ ¬ plain (group_key row column))
     ∧ ∀ e, groupBy data column = Throws e → e = TypeError)
  ∧ groupBy constructor_key_data "g" = Throws TypeError.
Proof.
  split; [|vm_compute; reflexivity].
  intros data column. rewrite groupBy_cases.
  destruct (forallb _ data) eqn:Hall.
  - split; [|done]. split; [done|]. intros (row & Hrow & Hkey).
    destruct Hkey. apply plain_inherited.
    apply list_elem_of_In in Hrow.
    apply (proj1 (forallb_forall _ _) Hall) in Hrow.
    by apply negb_true_iff in Hrow.
  - split; [|by intros e [= <-]]. split; [|done]. intros _.
    assert (∃ row, In row data
              ∧ inherited (group_key row column) = true)
      as (row & Hrow & Hinh).
    { clear -Hall. induction data as [|row data IH]; [done|].
      cbn [forallb] in Hall.
      destruct (inherited (group_key row column)) eqn:Hinh.
      - exists row. split; [by left | done].
      - destruct (IH Hall) as (r & Hr & Hri). exists r.
        split; [by right | done]. }
    exists row. split; [by apply list_elem_of_In|].
    intros Hplain. apply plain_inherited in Hplain. congruence.
Qed.

(** Claim C2: the code departs from it.  Rows whose value is 0, the empty
    string or false are all filed under "null", not under their own string
    representations "0", "" and "false". *)
Theorem groupBy_falsy_values_under_null :
  groupBy falsy_data "g" = Returns [("null"%string, falsy_data)]
  ∧ ToString (VNum zero) = "0"%string
  ∧ ToString (VStr "") = ""%string
  ∧ ToString (VBool false) = "false"%string.
Proof. repeat apply conj; vm_compute; reflexivity. Qed.

(** Property X12.  [groupBy] partitions the dataset, when no row's key is
    the name of a member of [Object.prototype]: the keys are distinct, no
    group is empty, every row of a group has the key of the group, and the
    groups together hold each row of the dataset exactly as often as the
    dataset does. *)
Theorem groupBy_partition (data : list Row) (column : string) :
  (∀ row, row ∈ data → plain (group_key row column)) →
  ∃ groups,
    groupBy data column = Returns groups
    ∧ NoDup (map fst groups)
    ∧ (∀ key rows, (key, rows) ∈ groups →
         rows ≠ [] ∧ ∀ row, row ∈ rows → group_key row column = key)
    ∧ concat (map snd groups) ≡ₚ data.
Proof.
  intros Hplain. eexists. split; [by apply groupBy_plain|].
  apply (fold_group_step_invariant column data [] []).
  apply groups_invariant_nil.
Qed.

(** The rows [{g: 'a'}, {g: 'a'}, {g: 'b'}], for the theorem above. *)
Lemma groupBy_partition_witness :
  ∃ groups,
    groupBy sales_data "g" = Returns groups
    ∧ NoDup (map fst groups)
    ∧ (∀ key rows, (key, rows) ∈ groups →
         rows ≠ [] ∧ ∀ row, row ∈ rows → group_key row "g" = key)
    ∧ concat (map snd groups) ≡ₚ sales_data.
Proof. apply (groupBy_partition sales_data "g"). plain_rows. Defined.

(** Property X13.  Grouping after filtering, when no row's key is the name
    of a member of [Object.prototype]: the group of a key is the group it
    has without the filter, filtered; a group of which the filter keeps
    nothing is not there. *)
Theorem groupBy_after_filterData (data : list Row)
    (filters : list Filter.t) (column : string) :
  (∀ row, row ∈ data → plain (group_key row column)) →
  ∃ groups kept,
    groupBy data column = Returns groups
    ∧ groupBy (filterData data filters) column = Returns kept
    ∧ ∀ key,
        obj_get kept key
        = match obj_get groups key with
          | None => None
          | Some rows =>
              match filterData rows filters with
              | [] => None
              | kept_rows => Some kept_rows
              end
          end.
Proof.
  intros Hplain. eexists _, _. split; [by apply groupBy_plain|]. split.
  { apply groupBy_plain. intros row Hrow. apply Hplain.
    apply list_elem_of_In, filter_In in Hrow as [Hrow _].
    by apply list_elem_of_In. }
  intros key. rewrite !fold_group_step_get. cbn [obj_get default app].
  unfold filterData at 1. rewrite filter_comm.
  fold (filterData
          (List.filter (λ row, String.eqb (group_key row column) key) data)
          filters).
  by destruct (List.filter _ data).
Qed.

(** The rows [{g: 'a'}, {g: 'a'}, {g: 'b'}] and the filter [g equals a],
    for the theorem above. *)
Lemma groupBy_after_filterData_witness :
  ∃ groups kept,
    groupBy sales_data "g" = Returns groups
    ∧ groupBy (filterData sales_data [group_is_a]) "g" = Returns kept
    ∧ ∀ key,
        obj_get kept key
        = match obj_get groups key with
          | None => None
          | Some rows =>
              match filterData rows [group_is_a] with
              | [] => None
              | kept_rows => Some kept_rows
              end
          end.
Proof.
  apply (groupBy_after_filterData sales_data [group_is_a] "g"). plain_rows.
Defined.

(** ** [aggregateGroups] *)

Lemma for_each_map {A B} (f : A → Result B) (g : A → B) (l : list A) :
  (∀ a, In a l → f a = Returns (g a)) → for_each f l = Returns (map g l).
Proof.
  induction l as [|a l IH]; intros Hf; simpl; [done|].
  rewrite (Hf a) by (by left). cbn [mbind Result_bind].
  rewrite IH; [done|]. intros b Hb. apply Hf. by right.
Qed.

Lemma for_each_Throws {A B} (f : A → Result B) (g : A → B) (e : Thrown)
    (l : list A) :
  (∀ a, In a l → f a = Returns (g a) ∨ f a = Throws e) →
  (∃ a, In a l ∧ f a = Throws e) →
  for_each f l = Throws e.
Proof.
  induction l as [|a l IH]; intros Hf (b & Hb & Hthrows); [destruct Hb|].
  simpl. destruct (Hf a) as [Ha|Ha]; [by left| |by rewrite Ha].
  rewrite Ha. cbn [mbind Result_bind]. rewrite IH; [done| |].
  - intros c Hc. apply Hf. by right.
  - destruct Hb as [->|Hb]; [congruence|]. eauto.
Qed.

Lemma for_each_ext {A B} (f g : A → Result B) (l : list A) :
  (∀ a, f a = g a) → for_each f l = for_each g l.
Proof. intros Hfg. induction l as [|a l IH]; simpl; by rewrite ?Hfg, ?IH. Qed.

Lemma min_or_max_elem (operation : string) :
  operation ∈ ["min"; "max"]%string ↔
  String.eqb operation "min" || String.eqb operation "max" = true.
Proof.
  rewrite !elem_of_cons, orb_true_iff, !String.eqb_eq. split.
  - intros [?|[?|H]]; [auto|auto|by apply elem_of_nil in H].
  - intros [?|?]; auto.
Qed.

(** The outcomes of [aggregate]. *)
Lemma aggregate_cases (limit : nat) (operation : string)
    (values : list number) :
  aggregate limit operation values
  = if (String.eqb operation "min" || String.eqb operation "max")
       && negb (Nat.leb (length values) limit)
    then Throws RangeError
    else Returns (aggregate_value operation values).
Proof.
  unfold aggregate, aggregate_value, Math_min, Math_max.
  destruct (String.eqb_spec operation "sum") as [->|_]; [done|].
  destruct (String.eqb_spec operation "avg") as [->|_]; [done|].
  destruct (String.eqb_spec operation "mean") as [->|_]; [done|].
  destruct (String.eqb_spec operation "count") as [->|_]; [done|].
  cbn [orb].
  destruct (String.eqb_spec operation "min") as [->|_].
  { by destruct (Nat.leb (length values) limit). }
  destruct (String.eqb_spec operation "max") as [->|_]; [|done].
  by destruct (Nat.leb (length values) limit).
Qed.

Lemma aggregateGroups_within (limit : nat) (groups : Obj (list Row))
    (aggregateColumn : string) (operation : option string) :
  within_arguments limit groups aggregateColumn operation →
  aggregateGroups limit groups aggregateColumn operation
  = Returns (records_of groups aggregateColumn operation).
Proof.
  intros Hwithin. unfold aggregateGroups, records_of.
  apply for_each_map. intros [key rows] Hentry.
  apply (proj1 (Object_entries_In _ _)) in Hentry.
  apply (proj2 (list_elem_of_In _ _)) in Hentry.
  rewrite aggregate_cases.
  destruct (String.eqb _ "min" || String.eqb _ "max") eqn:Hop; [|done].
  apply min_or_max_elem in Hop.
  specialize (Hwithin Hop key rows Hentry).
  unfold numeric_values in Hwithin.
  by rewrite (proj2 (Nat.leb_le _ _) Hwithin).
Qed.

(** Property X26.  [aggregateGroups] returns when the operation is neither
    "min" nor "max", or no group has more numeric values than the engine
    passes arguments; it throws a RangeError when the operation is "min"
    or "max" and some group has more. *)
Theorem aggregateGroups_throws_RangeError (limit : nat)
    (groups : Obj (list Row)) (aggregateColumn : string)
    (operation : option string) :
  (within_arguments limit groups aggregateColumn operation →
   ∃ records,
     aggregateGroups limit groups aggregateColumn operation
     = Returns records)
  ∧ (default "sum"%string operation ∈ ["min"; "max"]%string →
     (∃ key rows, (key, rows) ∈ groups
        ∧ (limit < length (numeric_values rows aggregateColumn))%nat) →
     aggregateGroups limit groups aggregateColumn operation
     = Throws RangeError).
Proof.
  split.
  { intros Hwithin. eexists. by apply aggregateGroups_within. }
  intros Hop (key & rows & Hentry & Hmany).
  apply min_or_max_elem in Hop. unfold aggregateGroups.
  apply (for_each_Throws _
           (λ '(key, rows),
              {| GroupAggregate.group := key;
                 GroupAggregate.value :=
                   round_to_2_decimals
                     (aggregate_value (default "sum"%string operation)
                        (numeric_values rows aggregateColumn));
                 GroupAggregate.count := length rows |})).
  - intros [k rs] _. rewrite aggregate_cases, Hop. cbn [andb].
    destruct (Nat.leb _ limit); [by left | by right].
  - exists (key, rows). split.
    + apply Object_entries_In. by apply list_elem_of_In.
    + rewrite aggregate_cases, Hop. cbn [andb].
      change (List.filter (λ v, negb (isNaN v))
                (map (λ r, parseFloat (get r aggregateColumn)) rows))
        with (numeric_values rows aggregateColumn).
      by rewrite (proj2 (Nat.leb_gt _ _) Hmany).
Qed.

Lemma filter_all_NaN (rows : list Row) (column : string) :
  (∀ r, r ∈ rows → isNaN (parseFloat (get r column)) = true) →
  List.filter (λ v, negb (isNaN v))
    (map (λ r, parseFloat (get r column)) rows) = [].
Proof.
  induction rows as [|r rows IH]; intros Hall; simpl; [done|].
  rewrite (Hall r) by (apply elem_of_cons; by left). simpl.
  apply IH. intros r' Hr'. apply Hall. apply elem_of_cons. by right.
Qed.

Lemma aggregate_nothing (operation : option string) :
  round_to_2_decimals (aggregate_value (default "sum"%string operation) [])
  = empty_group_value operation.
Proof.
  destruct operation as [op|]; [|vm_compute; reflexivity].
  change (default "sum"%string (Some op)) with op.
  unfold aggregate_value, empty_group_value.
  destruct (String.eqb op "sum") eqn:Hsum.
  { apply String.eqb_eq in Hsum. subst op. vm_compute. reflexivity. }
  destruct (String.eqb op "avg" || String.eqb op "mean");
    [vm_compute; reflexivity|].
  destruct (String.eqb op "count") eqn:Hcount.
  { apply String.eqb_eq in Hcount. subst op. vm_compute. reflexivity. }
  destruct (String.eqb op "min"); [vm_compute; reflexivity|].
  destruct (String.eqb op "max"); vm_compute; reflexivity.
Qed.

(** Claim C4, as amended.  A group without any numeric value is reported
    with value 0 for sum (also when the operation is omitted), NaN for avg
    and mean, +Infinity for min and -Infinity for max, and with its row
    count.  (The call returns: for min and max, no group has more numeric
    values than the engine passes arguments.) *)
Theorem aggregateGroups_empty_group (limit : nat) (groups : Obj (list Row))
    (aggregateColumn : string) (operation : option string)
    (key : string) (rows : list Row) :
  (key, rows) ∈ groups →
  (∀ r, r ∈ rows → isNaN (parseFloat (get r aggregateColumn)) = true) →
  within_arguments limit groups aggregateColumn operation →
  ∃ records,
    aggregateGroups limit groups aggregateColumn operation = Returns records
    ∧ {| GroupAggregate.group := key;
         GroupAggregate.value := empty_group_value operation;
         GroupAggregate.count := length rows |}
      ∈ records.
Proof.
  intros Hin Hall Hwithin. eexists.
  split; [by apply aggregateGroups_within|].
  apply list_elem_of_In. unfold records_of.
  apply in_map_iff. exists (key, rows). split.
  - unfold numeric_values. rewrite filter_all_NaN by done.
    by rewrite aggregate_nothing.
  - apply Object_entries_In. by apply list_elem_of_In.
Qed.

(** A group whose only value does not parse, for the theorem above. *)
Lemma aggregateGroups_empty_group_witness :
  ∃ records,
    aggregateGroups 1000 empty_group "v" (Some "min"%string) = Returns records
    ∧ {| GroupAggregate.group := "k";
         GroupAggregate.value := empty_group_value (Some "min"%string);
         GroupAggregate.count := length [cell "v" (VStr "abc")] |}
      ∈ records.
Proof.
  apply (aggregateGroups_empty_group 1000 empty_group "v" (Some "min"%string)
           "k" [cell "v" (VStr "abc")]).
  - apply elem_of_cons; by left.
  - intros r Hr. apply list_elem_of_singleton in Hr. subst r.
    vm_compute. reflexivity.
  - intros _ key rows Hin. apply list_elem_of_singleton in Hin.
    injection Hin as -> ->. apply Nat.leb_le. vm_compute. reflexivity.
Defined.

(** Claim C4 as stated fails: for the group [{k: [{v: 'abc'}]}], which has
    no numeric value, sum reports 0, min +Infinity and max -Infinity, none
    of them NaN, whatever the number of arguments the engine passes. *)
Lemma aggregateGroups_empty_group_not_NaN :
  List.filter (λ v, negb (isNaN v))
    (map (λ r, parseFloat (get r "v")) [cell "v" (VStr "abc")]) = []
  ∧ (∀ limit,
       map GroupAggregate.value
         <$> aggregateGroups limit empty_group "v" (Some "sum"%string)
       = Returns [zero])
  ∧ (∀ limit,
       map GroupAggregate.value
         <$> aggregateGroups limit empty_group "v" (Some "min"%string)
       = Returns [Infinity])
  ∧ (∀ limit,
       map GroupAggregate.value
         <$> aggregateGroups limit empty_group "v" (Some "max"%string)
       = Returns [neg_Infinity])
  ∧ isNaN zero = false ∧ isNaN Infinity = false
  ∧ isNaN neg_Infinity = false.
Proof. repeat apply conj; try intros limit; vm_compute; reflexivity. Qed.

Lemma Object_entries_no_index {A} (o : Obj A) :
  (∀ k, k ∈ map fst o → array_index k = None) → Object_entries o = o.
Proof.
  unfold Object_entries. intros H.
  assert (index_entries o = [] ∧ named_entries o = o) as [-> ->]; [|done].
  induction o as [|[k a] o IH]; [done|]. simpl.
  rewrite (H k) by (apply elem_of_cons; by left).
  destruct IH as [-> ->]; [|done].
  intros k' Hk'. apply H. apply elem_of_cons. by right.
Qed.

Lemma records_of_counts (groups : Obj (list Row))
    (aggregateColumn : string) (operation : option string) :
  map (λ r, (GroupAggregate.group r, GroupAggregate.count r))
    (records_of groups aggregateColumn operation)
  ≡ₚ map (λ entry, (fst entry, length (snd entry))) groups.
Proof.
  unfold records_of. rewrite !map_map.
  rewrite <- (Object_entries_perm groups) at 2.
  apply Permutation_refl'. apply map_ext. by intros [key rows].
Qed.

(** Property X14.  [aggregateGroups] reports each group once, under its
    key and with its number of rows (all rows, numeric or not); when no key
    is an array index the records come in the order of the groups.  (The
    call returns: for min and max, no group has more numeric values than
    the engine passes arguments.) *)
Theorem aggregateGroups_records (limit : nat) (groups : Obj (list Row))
    (aggregateColumn : string) (operation : option string) :
  within_arguments limit groups aggregateColumn operation →
  ∃ records,
    aggregateGroups limit groups aggregateColumn operation = Returns records
    ∧ map (λ r, (GroupAggregate.group r, GroupAggregate.count r)) records
      ≡ₚ map (λ entry, (fst entry, length (snd entry))) groups
    ∧ ((∀ key, key ∈ map fst groups → array_index key = None) →
       map GroupAggregate.group records = map fst groups).
Proof.
  intros Hwithin. eexists. split; [by apply aggregateGroups_within|].
  split; [apply records_of_counts|].
  intros Hkeys. unfold records_of. rewrite !map_map.
  rewrite Object_entries_no_index by done.
  apply map_ext. by intros [key rows].
Qed.

(** One group of three rows, summed, for the theorem above. *)
Lemma aggregateGroups_records_witness :
  ∃ records,
    aggregateGroups 1000 numeric_group "x" (Some "sum"%string) = Returns records
    ∧ map (λ r, (GroupAggregate.group r, GroupAggregate.count r)) records
      ≡ₚ map (λ entry, (fst entry, length (snd entry))) numeric_group
    ∧ ((∀ key, key ∈ map fst numeric_group → array_index key = None) →
       map GroupAggregate.group records = map fst numeric_group).
Proof.
  apply (aggregateGroups_records 1000 numeric_group "x" (Some "sum"%string)).
  intros Hop. apply min_or_max_elem in Hop. discriminate.
Defined.

Lemma list_sum_Permutation (l1 l2 : list nat) :
  l1 ≡ₚ l2 → list_sum l1 = list_sum l2.
Proof.
  induction 1 as [|x l1 l2 _ IH|x y l|l1 l2 l3 _ IH1 _ IH2]; simpl; lia.
Qed.

(** Property X15.  Grouping and then aggregating loses no row and counts
    none twice: the counts of the records add up to the number of rows of
    the dataset, whatever the operation.  (Both calls return: no row's key
    is the name of a member of [Object.prototype], and for min and max the
    dataset has no more rows than the engine passes arguments.) *)
Theorem groupBy_aggregate_counts (limit : nat) (data : list Row)
    (column aggregateColumn : string) (operation : option string) :
  (∀ row, row ∈ data → plain (group_key row column)) →
  (default "sum"%string operation ∈ ["min"; "max"]%string →
   (length data ≤ limit)%nat) →
  ∃ groups records,
    groupBy data column = Returns groups
    ∧ aggregateGroups limit groups aggregateColumn operation
      = Returns records
    ∧ list_sum (map GroupAggregate.count records) = length data.
Proof.
  intros Hplain Hlimit.
  destruct (fold_group_step_invariant column data [] []
              (groups_invariant_nil column)) as (_ & _ & Hperm).
  cbn [app] in Hperm.
  set (groups := fold_left (group_step column) data []) in *.
  exists groups, (records_of groups aggregateColumn operation).
  split; [by apply groupBy_plain|]. split.
  { apply aggregateGroups_within. intros Hop key rows Hentry.
    etransitivity; [apply numeric_values_length|].
    etransitivity; [|by apply Hlimit].
    rewrite <- (Permutation_length Hperm), length_concat.
    apply list_elem_of_In, (in_map snd), (in_map (@length Row)) in Hentry.
    simpl in Hentry. revert Hentry.
    generalize (map (@length Row) (map snd groups)) (length rows).
    intros l n. induction l as [|m l IH]; [done|].
    intros [->|Hin]; simpl; [lia|]. specialize (IH Hin). lia. }
  rewrite <- (Permutation_length Hperm), length_concat.
  apply list_sum_Permutation.
  pose proof (records_of_counts groups aggregateColumn operation) as Hrec.
  apply (Permutation_map snd) in Hrec. rewrite !map_map in Hrec.
  by rewrite map_map.
Qed.

(** Three rows grouped by [g] and summed over [v], for the theorem
    above. *)
Lemma groupBy_aggregate_counts_witness :
  ∃ groups records,
    groupBy sales_data "g" = Returns groups
    ∧ aggregateGroups 1000 groups "v" (Some "sum"%string) = Returns records
    ∧ list_sum (map GroupAggregate.count records) = length sales_data.
Proof.
  apply (groupBy_aggregate_counts 1000 sales_data "g" "v" (Some "sum"%string)).
  - plain_rows.
  - intros Hop. apply min_or_max_elem in Hop. discriminate.
Defined.

Lemma aggregate_default (limit : nat) (operation : string)
    (values : list number) :
  operation ∉ ["sum"; "avg"; "mean"; "count"; "min"; "max"]%string →
  aggregate limit operation values = aggregate limit "count" values.
Proof.
  rewrite !not_elem_of_cons.
  intros (Hsum & Havg & Hmean & Hcount & Hmin & Hmax & _).
  unfold aggregate.
  apply String.eqb_neq in Hsum, Havg, Hmean, Hcount, Hmin, Hmax.
  by rewrite Hsum, Havg, Hmean, Hcount, Hmin, Hmax.
Qed.

(** Property X16.  The names of the operations: leaving the operation out
    is asking for "sum"; "avg" and "mean" are the same; and a name that is
    none of "sum", "avg", "mean", "count", "min" and "max" (in this very
    spelling) is not refused but treated as "count". *)
Theorem aggregateGroups_operation_names (limit : nat)
    (groups : Obj (list Row)) (aggregateColumn : string) :
  aggregateGroups limit groups aggregateColumn None
  = aggregateGroups limit groups aggregateColumn (Some "sum"%string)
  ∧ aggregateGroups limit groups aggregateColumn (Some "avg"%string)
    = aggregateGroups limit groups aggregateColumn (Some "mean"%string)
  ∧ ∀ operation,
      operation ∉ ["sum"; "avg"; "mean"; "count"; "min"; "max"]%string →
      aggregateGroups limit groups aggregateColumn (Some operation)
      = aggregateGroups limit groups aggregateColumn (Some "count"%string).
Proof.
  repeat apply conj; [reflexivity | reflexivity |].
  intros operation Hop. unfold aggregateGroups.
  change (default "sum"%string (Some operation)) with operation.
  change (default "sum"%string (Some "count"%string)) with "count"%string.
  apply for_each_ext. intros [key rows]. by rewrite aggregate_default.
Qed.

Lemma aggregate_value_not_NaN (operation : string) (values : list number) :
  (0 < length values)%nat → Z.of_nat (length values) < 2 ^ 53 →
  (∀ v, v ∈ values → is_finite v = true) →
  isNaN (aggregate_value operation values) = false.
Proof.
  intros Hpos Hlen Hfin. unfold aggregate_value.
  assert (Forall not_NaN values) as HN.
  { apply List.Forall_forall. intros v Hv. apply list_elem_of_In in Hv.
    specialize (Hfin v Hv). by destruct v. }
  assert (isNaN (fold_left (λ a b, add a b) values zero) = false) as Hsum
    by (by apply fold_add_not_NaN).
  destruct (String.eqb operation "sum"); [done|].
  destruct (_ || _); [by apply div_count_not_NaN|].
  destruct (String.eqb operation "count");
    [apply binary_normalize_not_NaN|].
  destruct (String.eqb operation "min"); [by apply min_of_not_NaN|].
  destruct (String.eqb operation "max"); [by apply max_of_not_NaN|].
  apply binary_normalize_not_NaN.
Qed.

(** Property X17.  When every group has a numeric value and all its
    numeric values are finite, no reported value is NaN, whatever the
    operation.  (An array has fewer than 2^32 elements.  The call returns:
    for min and max, no group has more numeric values than the engine
    passes arguments.) *)
Theorem aggregateGroups_never_NaN (limit : nat) (groups : Obj (list Row))
    (aggregateColumn : string) (operation : option string) :
  (∀ key rows, (key, rows) ∈ groups →
     Z.of_nat (length rows) < 2 ^ 32
     ∧ numeric_values rows aggregateColumn ≠ []
     ∧ ∀ v, v ∈ numeric_values rows aggregateColumn → is_finite v = true) →
  within_arguments limit groups aggregateColumn operation →
  ∃ records,
    aggregateGroups limit groups aggregateColumn operation = Returns records
    ∧ ∀ r, r ∈ records → isNaN (GroupAggregate.value r) = false.
Proof.
  intros Hgroups Hwithin. eexists.
  split; [by apply aggregateGroups_within|].
  intros r Hr. unfold records_of in Hr.
  apply list_elem_of_In, in_map_iff in Hr as ([key rows] & <- & Hentry).
  apply (proj1 (Object_entries_In _ _)) in Hentry.
  apply (proj2 (list_elem_of_In _ _)) in Hentry.
  destruct (Hgroups key rows Hentry) as (Hlen & Hne & Hfin).
  cbn [GroupAggregate.value].
  apply round_to_2_decimals_not_NaN.
  pose proof (numeric_values_length rows aggregateColumn) as Hle.
  apply aggregate_value_not_NaN; [|lia|done].
  destruct (numeric_values rows aggregateColumn); [done | simpl; lia].
Qed.

(** One group with the values 3, 1 and 2, averaged, for the theorem
    above. *)
Lemma aggregateGroups_never_NaN_witness :
  ∃ records,
    aggregateGroups 1000 numeric_group "x" (Some "avg"%string) = Returns records
    ∧ ∀ r, r ∈ records → isNaN (GroupAggregate.value r) = false.
Proof.
  apply (aggregateGroups_never_NaN 1000 numeric_group "x" (Some "avg"%string)).
  - intros key rows Hin. apply list_elem_of_singleton in Hin.
    injection Hin as -> ->.
    split; [reflexivity|]. split; [by vm_compute|].
    apply Forall_forall. vm_compute. repeat constructor.
  - intros Hop. apply min_or_max_elem in Hop. discriminate.
Defined.

(** ** [countMissingValues]: the counts and the percentage *)

Lemma countMissingValues_lookup_None (data : list Row)
    (columns : list string) (col : string) :
  col ∉ columns → countMissingValues data columns !! col = None.
Proof.
  intros Hnin. unfold countMissingValues.
  rewrite (fold_insert_lookup
             (λ col,
                {| MissingReport.count :=
                     length (List.filter (λ row, is_missing row col) data);
                   MissingReport.percentage := _ |})).
  by rewrite decide_False.
Qed.

Lemma filter_length_all {A} (f : A → bool) (l : list A) :
  length (List.filter f l) = length l ↔ ∀ x, In x l → f x = true.
Proof.
  induction l as [|x l IH]; simpl; [done|].
  pose proof (filter_length_le f l) as Hle.
  destruct (f x) eqn:Hx; simpl.
  - split.
    + intros H y [<-|Hy]; [done|]. apply IH; [lia | done].
    + intros H. f_equal. apply IH. auto.
  - split; [lia|]. intros H. rewrite H in Hx by (by left). done.
Qed.

Lemma filter_length_zero {A} (f : A → bool) (l : list A) :
  length (List.filter f l) = 0%nat ↔ ∀ x, In x l → f x = false.
Proof.
  induction l as [|x l IH]; simpl; [done|].
  destruct (f x) eqn:Hx; simpl.
  - split; [done|]. intros H. rewrite H in Hx by (by left). done.
  - rewrite IH. split; [intros H y [<-|Hy]; auto | auto].
Qed.

(** Property X18.  For a column whose name is not the name of a member of
    [Object.prototype]: the report has an entry for the column exactly when
    the column was asked for; its count is at most the number of rows, is
    0 exactly when no row misses the column, and is the number of rows
    exactly when every row misses it. *)
Theorem countMissingValues_counts (data : list Row) (columns : list string)
    (col : string) :
  plain col →
  (is_Some (countMissingValues data columns !! col) ↔ col ∈ columns)
  ∧ ∀ report, countMissingValues data columns !! col = Some report →
      (MissingReport.count report ≤ length data)%nat
      ∧ (MissingReport.count report = 0%nat ↔
         ∀ row, row ∈ data → ¬ missing col row)
      ∧ (MissingReport.count report = length data ↔
         ∀ row, row ∈ data → missing col row).
Proof.
  intros Hplain. split.
  - destruct (decide (col ∈ columns)) as [Hin|Hnin].
    + rewrite countMissingValues_lookup by done. split; [done | by eexists].
    + rewrite countMissingValues_lookup_None by done.
      split; [by intros [? ?] | done].
  - intros report Hlook.
    destruct (decide (col ∈ columns)) as [Hin|Hnin];
      [|by rewrite countMissingValues_lookup_None in Hlook].
    rewrite countMissingValues_lookup in Hlook by done.
    injection Hlook as <-. cbn [MissingReport.count].
    split; [apply filter_length_le|]. split.
    + rewrite filter_length_zero. split.
      * intros H row Hrow Hmiss. apply is_missing_iff in Hmiss; [|done].
        rewrite H in Hmiss; [done|]. by apply list_elem_of_In.
      * intros H row Hrow. apply not_true_is_false. intros Hmiss.
        apply (H row); [by apply list_elem_of_In|].
        by apply is_missing_iff.
    + rewrite filter_length_all. split.
      * intros H row Hrow. apply is_missing_iff; [done|]. apply H.
        by apply list_elem_of_In.
      * intros H row Hrow. apply is_missing_iff; [done|]. apply H.
        by apply list_elem_of_In.
Qed.

(** Five rows and their column [a], for the theorem above. *)
Lemma countMissingValues_counts_witness :
  (is_Some (countMissingValues missing_data ["a"%string] !! "a"%string) ↔
   "a"%string ∈ ["a"%string])
  ∧ ∀ report,
      countMissingValues missing_data ["a"%string] !! "a"%string
      = Some report →
      (MissingReport.count report ≤ length missing_data)%nat
      ∧ (MissingReport.count report = 0%nat ↔
         ∀ row, row ∈ missing_data → ¬ missing "a" row)
      ∧ (MissingReport.count report = length missing_data ↔
         ∀ row, row ∈ missing_data → missing "a" row).
Proof.
  apply (countMissingValues_counts missing_data ["a"%string] "a"%string).
  reflexivity.
Defined.

(** Property X19.  The percentage of a report is NaN exactly when the
    dataset is empty (0 divided by 0).  (An array has fewer than 2^32
    elements.) *)
Theorem countMissingValues_percentage_NaN (data : list Row)
    (columns : list string) (col : string) (report : MissingReport.t) :
  Z.of_nat (length data) < 2 ^ 32 →
  countMissingValues data columns !! col = Some report →
  (isNaN (MissingReport.percentage report) = true ↔ data = []).
Proof.
  intros Hlen Hlook.
  destruct (decide (col ∈ columns)) as [Hin|Hnin];
    [|by rewrite countMissingValues_lookup_None in Hlook].
  rewrite countMissingValues_lookup in Hlook by done.
  injection Hlook as <-. cbn [MissingReport.percentage].
  destruct data as [|row data].
  - split; [done|]. intros _. vm_compute. reflexivity.
  - split; [|done]. intros HNaN.
    rewrite round_to_2_decimals_not_NaN in HNaN; [done|].
    rewrite hundred_finite. apply mul_finite_not_NaN.
    apply div_count_not_NaN; [simpl; lia| |].
    + apply Z.lt_trans with (2 ^ 32); [done | done].
    + apply binary_normalize_not_NaN.
Qed.

(** Five rows, for the theorem above. *)
Lemma countMissingValues_percentage_NaN_witness :
  ∃ report,
    countMissingValues missing_data ["a"%string] !! "a"%string = Some report
    ∧ (isNaN (MissingReport.percentage report) = true ↔ missing_data = []).
Proof.
  destruct (countMissingValues missing_data ["a"%string] !! "a"%string)
    as [report|] eqn:Hreport; [|by vm_compute in Hreport].
  exists report. split; [done|].
  apply (countMissingValues_percentage_NaN missing_data ["a"%string]
           "a"%string report); [reflexivity | exact Hreport].
Defined.

(** ** [detectColumnTypes]: the tags *)

Lemma detectColumnTypes_lookup_None (Date_parse : string → number)
    (data : list Row) (columns : list string) (col : string) :
  col ∉ columns → detectColumnTypes Date_parse data columns !! col = None.
Proof.
  intros Hnin. unfold detectColumnTypes.
  rewrite (fold_insert_lookup (λ col, column_type Date_parse data col)).
  by rewrite decide_False.
Qed.

Lemma type_of_sample_unknown (Date_parse : string → number)
    (sample : list Value) :
  type_of_sample Date_parse sample = "unknown"%string ↔ sample = [].
Proof.
  unfold type_of_sample. destruct sample as [|v sample]; [done|].
  cbn [length Nat.eqb].
  destruct (isNumeric _); [by split|].
  destruct (isDate _ _); [by split|].
  destruct (isBoolean _); by split.
Qed.

Lemma filter_nil_iff {A} (f : A → bool) (l : list A) :
  List.filter f l = [] ↔ ∀ x, In x l → f x = false.
Proof.
  split; [|apply filter_nothing].
  induction l as [|x l IH]; simpl; [done|].
  destruct (f x) eqn:Hx; [done|]. intros H y [<-|Hy]; auto.
Qed.

Lemma non_empty_false (v : Value) :
  non_empty v = false ↔ v = VUndefined ∨ v = VNull ∨ v = VStr "".
Proof.
  destruct v as [| |b|x|s|text]; cbn; try tauto.
  - split; [done | by intros [?|[?|?]]].
  - split; [done | by intros [?|[?|?]]].
  - destruct (String.eqb_spec s "") as [->|Hne]; cbn.
    + tauto.
    + split; [done|]. intros [?|[?|[= ?]]]; done.
  - split; [done | by intros [?|[?|?]]].
Qed.

Lemma get_absent_undefined (row : Row) (col : string) :
  row !! col = None →
  (get row col = VUndefined ∨ get row col = VNull ∨ get row col = VStr ""
   ↔ plain col).
Proof.
  intros Hrow. unfold get, plain. rewrite Hrow.
  destruct (Object_prototype col) as [v|] eqn:Hv; cbn [default].
  - split; [|done]. unfold Object_prototype in Hv.
    destruct (String.eqb col "constructor");
      [injection Hv as <-; by intros [?|[?|?]]|].
    destruct (existsb _ _); [injection Hv as <-; by intros [?|[?|?]]|].
    destruct (String.eqb col "__proto__"); [|done].
    injection Hv as <-. by intros [?|[?|?]].
  - split; [done | by left].
Qed.

(** Property X20.  For a column other than [__proto__]: the result has a
    tag for the column exactly when the column was asked for; the tag is
    one of "unknown", "number", "date", "boolean" and "string"; and it is
    "unknown" exactly when reading the column from each of the first 100
    rows gives undefined, null or the empty string.  When none of the
    first 100 rows has the column, of a dataset that is not empty, that is
    so exactly when the name of the column is not the name of a member of
    [Object.prototype]. *)
Theorem detectColumnTypes_tags (Date_parse : string → number)
    (data : list Row) (columns : list string) (col : string) :
  col ≠ "__proto__"%string →
  (is_Some (detectColumnTypes Date_parse data columns !! col) ↔
   col ∈ columns)
  ∧ ∀ tag, detectColumnTypes Date_parse data columns !! col = Some tag →
      tag ∈ ["unknown"; "number"; "date"; "boolean"; "string"]%string
      ∧ (tag = "unknown"%string ↔
         ∀ row, row ∈ firstn 100 data →
           get row col = VUndefined ∨ get row col = VNull
           ∨ get row col = VStr "")
      ∧ (data ≠ [] →
         (∀ row, row ∈ firstn 100 data → row !! col = None) →
         (tag = "unknown"%string ↔ plain col)).
Proof.
  intros _. split.
  - destruct (decide (col ∈ columns)) as [Hin|Hnin].
    + rewrite detectColumnTypes_lookup by done. split; [done | by eexists].
    + rewrite detectColumnTypes_lookup_None by done.
      split; [by intros [? ?] | done].
  - intros tag Hlook.
    destruct (decide (col ∈ columns)) as [Hin|Hnin];
      [|by rewrite detectColumnTypes_lookup_None in Hlook].
    rewrite detectColumnTypes_lookup in Hlook by done.
    injection Hlook as <-. unfold column_type. split.
    + unfold type_of_sample. rewrite !elem_of_cons.
      destruct (Nat.eqb _ 0); [auto|].
      destruct (isNumeric _); [auto|].
      destruct (isDate _ _); [auto|].
      destruct (isBoolean _); auto 10.
    + assert (type_of_sample Date_parse (sample_of data col)
              = "unknown"%string ↔
              ∀ row, row ∈ firstn 100 data →
                get row col = VUndefined ∨ get row col = VNull
                ∨ get row col = VStr "") as Hunknown.
      { rewrite type_of_sample_unknown. unfold sample_of.
        change (λ v, negb (loose_equal_null v)
                     && negb (strict_equal v (VStr "")))
          with non_empty.
        rewrite filter_nil_iff. split.
        - intros H row Hrow. apply non_empty_false, H, in_map_iff.
          exists row. split; [done | by apply list_elem_of_In].
        - intros H v Hv. apply in_map_iff in Hv as (row & <- & Hrow).
          apply non_empty_false, H. by apply list_elem_of_In. }
      split; [done|]. intros Hdata Habsent. rewrite Hunknown.
      destruct data as [|row0 data]; [done|]. split.
      * intros H.
        apply (get_absent_undefined row0 col).
        -- apply Habsent. apply elem_of_cons. by left.
        -- apply H. apply elem_of_cons. by left.
      * intros Hplain row Hrow.
        apply (get_absent_undefined row col); [by apply Habsent | done].
Qed.

(** The column [c] of three rows, with a [Date.parse] that accepts
    nothing, for the theorem above. *)
Lemma detectColumnTypes_tags_witness :
  (is_Some (detectColumnTypes (λ _, NaN) zero_one_data ["c"%string]
              !! "c"%string) ↔
   "c"%string ∈ ["c"%string])
  ∧ ∀ tag,
      detectColumnTypes (λ _, NaN) zero_one_data ["c"%string] !! "c"%string
      = Some tag →
      tag ∈ ["unknown"; "number"; "date"; "boolean"; "string"]%string
      ∧ (tag = "unknown"%string ↔
         ∀ row, row ∈ firstn 100 zero_one_data →
           get row "c" = VUndefined ∨ get row "c" = VNull
           ∨ get row "c" = VStr "")
      ∧ (zero_one_data ≠ [] →
         (∀ row, row ∈ firstn 100 zero_one_data → row !! "c"%string = None) →
         (tag = "unknown"%string ↔ plain "c")).
Proof.
  apply (detectColumnTypes_tags (λ _, NaN) zero_one_data ["c"%string]
           "c"%string).
  discriminate.
Defined.

Section NumberColumns.

Variable Date_parse : string → number.

(** Property X21.  A column whose non-empty cells among the first 100 rows
    are all finite Numbers, with at least one of them, is tagged "number",
    whatever [Date.parse] does. *)
Theorem detectColumnTypes_Number_cells (data : list Row)
    (columns : list string) (col : string) :
  col ∈ columns →
  (∃ row, row ∈ firstn 100 data ∧ non_empty (get row col) = true) →
  (∀ row, row ∈ firstn 100 data → non_empty (get row col) = true →
     ∃ x, get row col = VNum x ∧ is_finite x = true) →
  detectColumnTypes Date_parse data columns !! col = Some "number"%string.
Proof.
  intros Hcol (row0 & Hrow0 & Hne0) Hrows.
  rewrite detectColumnTypes_lookup by done.
  f_equal. unfold column_type, type_of_sample.
  assert (∀ v, v ∈ sample_of data col →
            ∃ x, v = VNum x ∧ is_finite x = true) as Hsample.
  { intros v Hv. unfold sample_of in Hv.
    apply list_elem_of_In, filter_In in Hv as [Hv Hne].
    apply in_map_iff in Hv as (row & <- & Hrow).
    apply Hrows; [by apply list_elem_of_In|done]. }
  assert (get row0 col ∈ sample_of data col) as Hin.
  { unfold sample_of. apply list_elem_of_In, filter_In. split; [|done].
    apply in_map_iff. exists row0. split; [done|].
    by apply list_elem_of_In. }
  destruct (sample_of data col) as [|v sample] eqn:Hs.
  { by apply elem_of_nil in Hin. }
  cbn [length Nat.eqb].
  assert (isNumeric (v :: sample) = true) as ->; [|done].
  unfold isNumeric. apply forallb_forall. intros w Hw.
  apply list_elem_of_In in Hw.
  destruct (Hsample w Hw) as (x & -> & Hx).
  unfold parseFloat, isFinite. cbn [ToString ToNumber].
  rewrite parseFloat_of_number, Hx. by destruct x.
Qed.

End NumberColumns.

(** The Numbers 1.5 and -2, for the theorem above. *)
Lemma detectColumnTypes_Number_cells_witness :
  detectColumnTypes (λ _, NaN) number_cells_data ["x"%string] !! "x"%string
  = Some "number"%string.
Proof.
  apply (detectColumnTypes_Number_cells (λ _, NaN) number_cells_data
           ["x"%string] "x"%string).
  - apply elem_of_cons; by left.
  - exists (cell "x" (VNum (of_Z (-2)))). split; [|by vm_compute].
    apply list_elem_of_In. right. by left.
  - intros row Hrow _. apply list_elem_of_In in Hrow.
    destruct Hrow as [<-|[<-|[]]].
    + exists (of_decimal false 15 (-1)). split; vm_compute; reflexivity.
    + exists (of_Z (-2)). split; vm_compute; reflexivity.
Defined.

(** ** [findAnomalies]: where the anomalies point *)

Lemma StronglySorted_filter {A B} (R : B → B → Prop) (g : A → B)
    (f : A → bool) (l : list A) :
  StronglySorted R (map g l) → StronglySorted R (map g (List.filter f l)).
Proof.
  induction l as [|x l IH]; simpl; [done|].
  intros H. apply StronglySorted_inv in H as [Hl Hx].
  destruct (f x); simpl; [|by apply IH].
  constructor; [by apply IH|].
  apply List.Forall_forall. intros y Hy.
  apply in_map_iff in Hy as (z & <- & Hz). apply filter_In in Hz as [Hz _].
  apply (proj1 (List.Forall_forall _ _) Hx). by apply in_map.
Qed.

Lemma items_indexed (column : string) (data : list Row) (n : nat) :
  let items :=
    imap (λ idx row,
            {| Item.value := parseFloat (get row column);
               Item.index := n + idx |}) data in
  StronglySorted Nat.lt (map Item.index items)
  ∧ ∀ item, In item items →
      (n ≤ Item.index item)%nat
      ∧ ∃ row, data !! (Item.index item - n)%nat = Some row
          ∧ Item.value item = parseFloat (get row column).
Proof.
  revert n. induction data as [|row data IH]; intros n; simpl.
  - split; [constructor | done].
  - assert (imap ((λ idx row0,
                     {| Item.value := parseFloat (get row0 column);
                        Item.index := n + idx |}) ∘ S) data
            = imap (λ idx row0,
                      {| Item.value := parseFloat (get row0 column);
                         Item.index := S n + idx |}) data) as ->.
    { apply imap_ext. intros i x _. simpl. f_equal. lia. }
    destruct (IH (S n)) as [Hsorted Hitems]. split.
    + constructor; [done|]. apply List.Forall_forall. intros i Hi.
      apply in_map_iff in Hi as (item & <- & Hitem).
      destruct (Hitems item Hitem) as [Hle _]. unfold Nat.lt. lia.
    + intros item [<-|Hitem].
      * simpl. split; [lia|]. exists row.
        by replace (n + 0 - n)%nat with 0%nat by lia.
      * destruct (Hitems item Hitem) as (Hle & row' & Hrow' & Hval).
        split; [lia|]. exists row'. split; [|done].
        replace (Item.index item - n)%nat
          with (S (Item.index item - S n)) by lia.
        done.
Qed.

(** Property X22.  The anomalies come in the order of the dataset, each row
    at most once; the index of an anomaly is the position of its row in
    the dataset as given (unparsed rows included), its value is what that
    row's cell parses to, and it is not NaN. *)
Theorem findAnomalies_points_at_rows (data : list Row) (column : string) :
  StronglySorted Nat.lt (map Anomaly.index (findAnomalies data column))
  ∧ ∀ a, a ∈ findAnomalies data column →
      ∃ row, data !! Anomaly.index a = Some row
        ∧ Anomaly.value a = parseFloat (get row column)
        ∧ isNaN (Anomaly.value a) = false.
Proof.
  unfold findAnomalies.
  destruct (Nat.eqb (length data) 0).
  { split; [constructor|]. intros a Ha. by apply elem_of_nil in Ha. }
  destruct (items_indexed column data 0) as [Hsorted Hitems].
  cbn zeta in Hsorted, Hitems.
  set (items := imap _ data) in *.
  set (values := List.filter _ items).
  destruct (Nat.ltb (length values) 3).
  { split; [constructor|]. intros a Ha. by apply elem_of_nil in Ha. }
  set (anomalies := List.filter _ values).
  split.
  - rewrite map_map. cbn [Anomaly.index].
    change (map (λ x, Item.index x) anomalies)
      with (map Item.index anomalies).
    by do 2 apply StronglySorted_filter.
  - intros a Ha. apply list_elem_of_In, in_map_iff in Ha.
    destruct Ha as (item & <- & Hitem). cbn [Anomaly.index Anomaly.value].
    apply filter_In in Hitem as [Hitem _].
    apply filter_In in Hitem as [Hitem HN].
    destruct (Hitems item Hitem) as (_ & row & Hrow & Hval).
    exists row. rewrite Nat.sub_0_r in Hrow.
    split; [done|]. split; [done|]. by apply negb_true_iff in HN.
Qed.

(** ** [validateApiKey] *)

Lemma messages_differ : key_not_set_message ≠ key_too_short_message.
Proof. discriminate. Qed.

Lemma is_set_Some (v : option string) :
  is_set v = true ↔ ∃ key, v = Some key ∧ key ≠ ""%string.
Proof.
  destruct v as [key|]; simpl.
  - destruct (String.eqb_spec key "") as [->|Hne]; simpl.
    + split; [done|]. by intros (k & [= <-] & ?).
    + split; [eauto | done].
  - split; [done | by intros (k & ? & _)].
Qed.

(** Property X23.  The check throws "not set" exactly when neither variable
    is set to a non-empty string, and "too short" exactly when the key it
    picks ([GEMINI_API_KEY] if set, else
    [GOOGLE_GENERATIVE_AI_API_KEY]) has fewer than 20 characters.  When it
    throws, the environment is as before and three lines were logged. *)
Theorem validateApiKey_errors (env : Env.t) :
  let chosen :=
    if is_set (Env.GEMINI_API_KEY env) then Env.GEMINI_API_KEY env
    else Env.GOOGLE_GENERATIVE_AI_API_KEY env in
  (Outcome.result (validateApiKey env) = inl key_not_set_message ↔
   is_set (Env.GEMINI_API_KEY env) = false
   ∧ is_set (Env.GOOGLE_GENERATIVE_AI_API_KEY env) = false)
  ∧ (Outcome.result (validateApiKey env) = inl key_too_short_message ↔
     ∃ key, chosen = Some key ∧ key ≠ ""%string
       ∧ (String.length key < 20)%nat)
  ∧ (∀ message, Outcome.result (validateApiKey env) = inl message →
       Outcome.env (validateApiKey env) = env
       ∧ length (Outcome.log (validateApiKey env)) = 3%nat).
Proof.
  pose proof messages_differ as Hdiff.
  assert (key_too_short_message ≠ key_not_set_message) as Hdiff'
    by congruence.
  intros chosen. unfold validateApiKey. fold chosen.
  assert (is_set chosen
          = is_set (Env.GEMINI_API_KEY env)
            || is_set (Env.GOOGLE_GENERATIVE_AI_API_KEY env)) as Hchosen
    by (subst chosen; by destruct (is_set (Env.GEMINI_API_KEY env)) eqn:?).
  generalize (key_check_log env chosen)
    (eq_refl : length (key_check_log env chosen) = 3%nat).
  intros log Hlog.
  clearbody chosen.
  destruct (is_set chosen) eqn:Hset; cbn [negb].
  - apply is_set_Some in Hset. destruct Hset as (k & -> & Hne).
    change (default ""%string (Some k)) with k.
    symmetry in Hchosen. apply orb_true_iff in Hchosen.
    destruct (Nat.ltb_spec (String.length k) 20) as [Hshort|Hlong];
      [|destruct (negb _ && _)];
      cbn [Outcome.result Outcome.env Outcome.log];
      repeat apply conj; try validate_leaf;
      intros [Hg Hg']; rewrite Hg, Hg' in Hchosen; by destruct Hchosen.
  - symmetry in Hchosen. apply orb_false_iff in Hchosen.
    cbn [Outcome.result Outcome.env Outcome.log].
    repeat apply conj; try validate_leaf.
    intros (k & -> & Hk & _). simpl in Hset.
    apply negb_false_iff, String.eqb_eq in Hset. done.
Qed.

(** Property X24.  When the check returns a key, the key has at least 20
    characters and is [GEMINI_API_KEY] if that is set, else
    [GOOGLE_GENERATIVE_AI_API_KEY]; afterwards [GEMINI_API_KEY] is as
    before and [GOOGLE_GENERATIVE_AI_API_KEY] is set: to its old value if
    it had one, else to the key.  A second check returns the same key and
    changes nothing. *)
Theorem validateApiKey_success (env : Env.t) (key : string) :
  Outcome.result (validateApiKey env) = inr key →
  let env' := Outcome.env (validateApiKey env) in
  (20 ≤ String.length key)%nat
  ∧ Some key = (if is_set (Env.GEMINI_API_KEY env)
                then Env.GEMINI_API_KEY env
                else Env.GOOGLE_GENERATIVE_AI_API_KEY env)
  ∧ Env.GEMINI_API_KEY env' = Env.GEMINI_API_KEY env
  ∧ is_set (Env.GOOGLE_GENERATIVE_AI_API_KEY env') = true
  ∧ Env.GOOGLE_GENERATIVE_AI_API_KEY env'
    = (if is_set (Env.GOOGLE_GENERATIVE_AI_API_KEY env)
       then Env.GOOGLE_GENERATIVE_AI_API_KEY env else Some key)
  ∧ Outcome.result (validateApiKey env') = inr key
  ∧ Outcome.env (validateApiKey env') = env'.
Proof.
  destruct env as [gemini google]. unfold validateApiKey.
  cbn [Env.GEMINI_API_KEY Env.GOOGLE_GENERATIVE_AI_API_KEY].
  destruct (is_set gemini) eqn:Hgem.
  - apply is_set_Some in Hgem as Hk. destruct Hk as (k & -> & Hne).
    rewrite Hgem. change (default ""%string (Some k)) with k.
    cbn [negb andb].
    destruct (Nat.ltb_spec (String.length k) 20) as [Hshort|Hlong];
      [done|].
    destruct (is_set google) eqn:Hgoo;
      cbn [negb andb Outcome.result Outcome.env]; intros [= <-];
      cbn [Env.GEMINI_API_KEY Env.GOOGLE_GENERATIVE_AI_API_KEY];
      rewrite ?Hgem, ?Hgoo; change (default ""%string (Some k)) with k;
      cbn [negb andb];
      destruct (Nat.ltb_spec (String.length k) 20); try lia;
      cbn [Outcome.result Outcome.env]; done.
  - destruct (is_set google) eqn:Hgoo; cbn [negb]; [|done].
    apply is_set_Some in Hgoo as Hk. destruct Hk as (k & -> & Hne).
    change (default ""%string (Some k)) with k. cbn [andb].
    destruct (Nat.ltb_spec (String.length k) 20) as [Hshort|Hlong];
      [done|].
    cbn [Outcome.result Outcome.env]. intros [= <-].
    cbn [Env.GEMINI_API_KEY Env.GOOGLE_GENERATIVE_AI_API_KEY].
    rewrite ?Hgem, ?Hgoo. change (default ""%string (Some k)) with k.
    cbn [negb andb].
    destruct (Nat.ltb_spec (String.length k) 20); try lia.
    cbn [Outcome.result Outcome.env]. done.
Qed.

(** Only [GEMINI_API_KEY] set, for the theorem above. *)
Lemma validateApiKey_success_witness :
  let key := "abcdefghijklmnopqrstuvwxyz"%string in
  let env' := Outcome.env (validateApiKey gemini_only_env) in
  Outcome.result (validateApiKey gemini_only_env) = inr key
  ∧ (20 ≤ String.length key)%nat
  ∧ Some key = (if is_set (Env.GEMINI_API_KEY gemini_only_env)
                then Env.GEMINI_API_KEY gemini_only_env
                else Env.GOOGLE_GENERATIVE_AI_API_KEY gemini_only_env)
  ∧ Env.GEMINI_API_KEY env' = Env.GEMINI_API_KEY gemini_only_env
  ∧ is_set (Env.GOOGLE_GENERATIVE_AI_API_KEY env') = true
  ∧ Env.GOOGLE_GENERATIVE_AI_API_KEY env'
    = (if is_set (Env.GOOGLE_GENERATIVE_AI_API_KEY gemini_only_env)
       then Env.GOOGLE_GENERATIVE_AI_API_KEY gemini_only_env
       else Some key)
  ∧ Outcome.result (validateApiKey env') = inr key
  ∧ Outcome.env (validateApiKey env') = env'.
Proof.
  split; [reflexivity|].
  apply (validateApiKey_success gemini_only_env
           "abcdefghijklmnopqrstuvwxyz"%string).
  reflexivity.
Defined.
